(** * Watchtower JS SDK (lib/watchtower.js): policy cache, fail-open checks

    A shallow embedding of the moderation client: [safeApiCall],
    [toUint8Array], [WatchtowerClient] with [refreshPolicy],
    [_getPolicyMaybeRefresh], [checkText], [checkImageJpeg],
    [_applyPolicyToImageResult] and [emitEvent].

    - JavaScript numbers are IEEE-754 binary64 values ([spec_float] of the
      Standard Library with precision 53 and maximal exponent 1024), so
      [NaN], the infinities and the signed zeros behave as in the source.
    - A parsed JSON body is a [json] tree; [undefined] is [None] in
      [option json].  [String(v)] and [Number(v)] on such a value are
      evaluated as the runtime does, and throw a TypeError on an object
      that has no primitive value (the text gave it a [toString] of its
      own) and on an array holding one.
    - An [async] function is a computation in the monad [M]: it threads the
      [World] (the client object, the clock, the requests sent, the console,
      the pending timers, the promise table) and completes normally or
      abruptly (a thrown error / rejected promise).  [M] gives the run of one
      call during which every awaited operation of that call settles; the
      network answers through an [Env].
    - The interleaving of several calls on one client is the transition
      system [step] on a [Store], whose steps are the segments of
      [refreshPolicy] and [_getPolicyMaybeRefresh] between two suspension
      points; [solo_refresh_is_a_run] relates the two views. *)

From Stdlib Require Import ZArith List String Bool Lia Strings.Byte DecimalString.
From Stdlib Require Import Floats.SpecFloat.
Import ListNotations.
Open Scope string_scope.
Open Scope list_scope.

Set Warnings "-register-all".

(** ** Numbers *)

Definition number : Type := spec_float.

Definition prec : Z := 53.
Definition emax : Z := 1024.

Definition num_sub : number -> number -> number := SFsub prec emax.
Definition num_mul : number -> number -> number := SFmul prec emax.

(** [a > b], [a >= b] and [a <= b] of JavaScript: false when an operand is NaN. *)
Definition num_gt (a b : number) : bool := SFltb b a.
Definition num_ge (a b : number) : bool := SFleb b a.
Definition num_le (a b : number) : bool := SFleb a b.

(** [Math.min]: NaN when an operand is NaN, and [-0] below [+0]. *)
Definition Math_min (a b : number) : number :=
  match SFcompare a b with
  | None => S754_nan
  | Some Lt => a
  | Some Gt => b
  | Some Eq =>
      match a, b with
      | S754_zero sa, S754_zero sb => S754_zero (sa || sb)
      | _, _ => a
      end
  end.

(** The literals of the source, as the binary64 values nearest to them. *)
Definition n0 : number := S754_zero false.
Definition n1 : number := S754_finite false 4503599627370496 (-52).
Definition n0_85 : number := S754_finite false 7656119366529843 (-53).
Definition n0_9 : number := S754_finite false 8106479329266893 (-53).
Definition n60 : number := S754_finite false 8444249301319680 (-47).
Definition n1000 : number := S754_finite false 8796093022208000 (-43).
Definition n5000 : number := S754_finite false 5497558138880000 (-40).
Definition n20000 : number := S754_finite false 5497558138880000 (-38).
Definition infinity : number := S754_infinity false.

(** ** JSON values and the operators the source applies to them *)

Inductive json : Type :=
| JNull
| JBool (b : bool)
| JNum (n : number)
| JStr (s : string)
| JArr (items : list json)
| JObj (fields : list (string * json)).

(** [JObj fields] lists the properties of a parsed object, each key once.

    A JavaScript value that may be [undefined]: *)
Definition jsval : Type := option json.

Fixpoint assoc (k : string) (fields : list (string * json)) : jsval :=
  match fields with
  | [] => None
  | (k', v) :: rest => if String.eqb k k' then Some v else assoc k rest
  end.

(** [j?.k] for the property names the source reads: [undefined] on [null]
    and on anything that is not an object holding [k]. *)
Definition opt_get (j : json) (k : string) : jsval :=
  match j with
  | JObj fields => assoc k fields
  | _ => None
  end.

(** [v ?? d] *)
Definition nullish (v : jsval) (d : json) : json :=
  match v with
  | None | Some JNull => d
  | Some x => x
  end.

Definition is_zero_or_nan (n : number) : bool :=
  match n with
  | S754_zero _ | S754_nan => true
  | _ => false
  end.

(** ToBoolean *)
Definition truthy (v : json) : bool :=
  match v with
  | JNull => false
  | JBool b => b
  | JNum n => negb (is_zero_or_nan n)
  | JStr s => negb (String.eqb s "")
  | JArr _ | JObj _ => true
  end.

(** [v || d] *)
Definition or_else (v : jsval) (d : json) : json :=
  match v with
  | Some x => if truthy x then x else d
  | None => d
  end.

(** [typeof v === "number" ? v : null] *)
Definition number_or_null (v : jsval) : option number :=
  match v with
  | Some (JNum n) => Some n
  | _ => None
  end.

(** [Array.isArray(v) ? v : []] *)
Definition array_or_empty (v : jsval) : list json :=
  match v with
  | Some (JArr items) => items
  | _ => []
  end.

(** ** Data model *)

Inductive ModerationMode : Type := ON_DEVICE_ONLY | CLOUD_ONLY | HYBRID.

(** [this.config], each property as the SDK reads it.  The SDK reads
    [apiBaseUrl] inside the template literals of its URLs, [sendEvents] as
    the condition of an [if], [policyRefreshSeconds] as an operand of [*],
    and [timeoutMs] as the delay of [setTimeout] and an argument of
    [Math.min]; it never reads [mode]. *)
Record Config : Type := mkConfig {
  apiBaseUrl : string;
  sendEvents : bool;
  policyRefreshSeconds : number;
  mode : option ModerationMode;
  timeoutMs : number
}.

(** A property of the caller's [config] object: there is none of that name,
    or there is one, and it holds [undefined] or a value of its type. *)
Inductive Optional (A : Type) : Type :=
| Missing
| Undefined
| Value (a : A).
Arguments Missing {A}.
Arguments Undefined {A}.
Arguments Value {A} a.

(** The caller's [config] argument: every property is optional. *)
Record WatchtowerConfig : Type := mkWatchtowerConfig {
  cfg_apiBaseUrl : Optional string;
  cfg_sendEvents : Optional bool;
  cfg_policyRefreshSeconds : Optional number;
  cfg_mode : Optional ModerationMode;
  cfg_timeoutMs : Optional number
}.

Definition DEFAULT_CONFIG : Config :=
  {| apiBaseUrl := "http://localhost:8080";
     sendEvents := true;
     policyRefreshSeconds := n60;
     mode := Some HYBRID;
     timeoutMs := n20000 |}.

(** One property of [{ ...DEFAULT_CONFIG, ...config }]: a property of
    [config] replaces the default also when it holds [undefined], which the
    SDK then reads as [read_undefined]. *)
Definition spread {A : Type} (dflt : A) (read_undefined : A) (p : Optional A) : A :=
  match p with
  | Missing => dflt
  | Undefined => read_undefined
  | Value a => a
  end.

(** [{ ...DEFAULT_CONFIG, ...(config || {}) }].  [undefined] is read as the
    text "undefined" in a template literal, as false in a condition, and as
    NaN in arithmetic, in [Math.min] and as a delay. *)
Definition merge_config (config : option WatchtowerConfig) : Config :=
  match config with
  | None => DEFAULT_CONFIG
  | Some c =>
      {| apiBaseUrl := spread (apiBaseUrl DEFAULT_CONFIG) "undefined" (cfg_apiBaseUrl c);
         sendEvents := spread (sendEvents DEFAULT_CONFIG) false (cfg_sendEvents c);
         policyRefreshSeconds :=
           spread (policyRefreshSeconds DEFAULT_CONFIG) S754_nan
             (cfg_policyRefreshSeconds c);
         mode := match cfg_mode c with
                 | Missing => mode DEFAULT_CONFIG
                 | Undefined => None
                 | Value m => Some m
                 end;
         timeoutMs := spread (timeoutMs DEFAULT_CONFIG) S754_nan (cfg_timeoutMs c) |}
  end.

(** The three toggles hold whatever JSON value the policy endpoint sent
    ([json?.blockToxicity ?? true] does not check the type); the thresholds
    went through [Number(...)]. *)
Record Policy : Type := mkPolicy {
  blockToxicity : json;
  blockSexual : json;
  blockNsfwImages : json;
  toxicityThreshold : number;
  sexualThreshold : number;
  nsfwThreshold : number
}.

Definition DEFAULT_POLICY : Policy :=
  {| blockToxicity := JBool true;
     blockSexual := JBool true;
     blockNsfwImages := JBool true;
     toxicityThreshold := n0_85;
     sexualThreshold := n0_85;
     nsfwThreshold := n0_85 |}.

Record ImageModerationResult : Type := mkResult {
  decision : json;
  nsfwScore : option number;
  reasons : list json
}.

(** The caller's [meta] object, passed through as it is; being a tree, it
    serialises without error. *)
Definition ContentMeta : Type := json.

(** A JavaScript [Error] object. *)
Inductive Error : Type :=
| mkError (name message : string).

(** How an evaluation ends: with a value, or with a thrown error. *)
Inductive Completion (A : Type) : Type :=
| Normal (a : A)
| Abrupt (e : Error).
Arguments Normal {A} a.
Arguments Abrupt {A} e.

(** [k] after [c], unless [c] threw. *)
Definition and_then {A B : Type} (c : Completion A) (k : A -> Completion B) :
  Completion B :=
  match c with
  | Normal a => k a
  | Abrupt e => Abrupt e
  end.

(** [Array.prototype.join] with the separator ",", on the texts of the
    elements: the first element that threw makes the join throw. *)
Fixpoint join (parts : list (Completion string)) : Completion string :=
  match parts with
  | [] => Normal ""
  | part :: rest =>
      and_then part
        (fun s =>
           match rest with
           | [] => Normal s
           | _ :: _ =>
               and_then (join rest)
                 (fun t => Normal (String.append s (String.append "," t)))
           end)
  end.

(** The [jpeg] argument of [checkImageJpeg]: one of the three byte-bearing
    classes, or any other value.  Reading a [Blob] is asynchronous and can
    fail. *)
Inductive ImageInput : Type :=
| IUint8Array (bytes : list byte)
| IArrayBuffer (bytes : list byte)
| IBlob (read : Completion (list byte))
| IOther (v : jsval).

Definition supported (jpeg : ImageInput) : bool :=
  match jpeg with
  | IOther _ => false
  | _ => true
  end.

(** ** The network *)

Inductive Method : Type := GET | POST.

Inductive Body : Type :=
| NoBody
| JsonBody (j : json)
| BytesBody (bytes : list byte).

Record Request : Type := mkRequest {
  url : string;
  method : Method;
  headers : list (string * string);
  body : Body;
  deadlineMs : number
}.

(** What [await res.json()] gives. *)
Inductive BodyOutcome : Type :=
| BodyJson (j : json)
| BodyMalformed
| BodyTimedOut.

Record Response : Type := mkResponse {
  status : nat;
  payload : BodyOutcome
}.

(** [res.ok]: the status is in the range 200-299. *)
Definition ok (res : Response) : bool :=
  (200 <=? status res)%nat && (status res <=? 299)%nat.

(** How [await fetch(url, { ..., signal })] settles: the request fails in
    transport, the deadline of [withTimeout] aborts it, or a response
    arrives. *)
Inductive FetchOutcome : Type :=
| NetworkError
| TimedOut
| Responded (res : Response).

Record Reply : Type := mkReply {
  outcome : FetchOutcome;
  arrival : number
}.

Definition failed_in_transport (o : FetchOutcome) : bool :=
  match o with
  | NetworkError | TimedOut => true
  | Responded _ => false
  end.

Definition TypeError_failed_to_fetch : Error := mkError "TypeError" "Failed to fetch".
Definition Error_timeout : Error := mkError "Error" "timeout".
Definition SyntaxError_json : Error := mkError "SyntaxError" "Unexpected token in JSON".
(** What [String(v)] and [Number(v)] throw when [v] has no primitive value
    (the message is the one of V8). *)
Definition TypeError_no_primitive : Error :=
  mkError "TypeError" "Cannot convert object to primitive value".
Definition Error_unsupported_image : Error :=
  mkError "Error" "Unsupported image input. Use Blob, ArrayBuffer, or Uint8Array.".

(** ** The client object and the world around it *)

(** The promises kept in [_policyRefreshPromise] come from [safeApiCall]
    and hold a policy once settled. *)
Inductive PromiseState : Type :=
| Pending
| Fulfilled (v : Policy).

Record Client : Type := mkClient {
  apiKey : string;
  config : Config;
  cachedPolicy : Policy;
  policyLastFetchMs : number;
  _policyRefreshPromise : option nat
}.

Record World : Type := mkWorld {
  client : Client;
  now : number;
  netlog : list Request;
  console : list (string * Error);
  timers : nat;
  promises : list PromiseState
}.

(** The surroundings of one call: how the network answers a request, and
    what a promise that another call left pending is fulfilled with
    ([safeApiCall] promises never reject). *)
Record Env : Type := mkEnv {
  net : Request -> Reply;
  settles : nat -> Policy
}.

Definition set_client (f : Client -> Client) (w : World) : World :=
  mkWorld (f (client w)) (now w) (netlog w) (console w) (timers w) (promises w).

Definition with_cachedPolicy (p : Policy) (c : Client) : Client :=
  mkClient (apiKey c) (config c) p (policyLastFetchMs c) (_policyRefreshPromise c).

Definition with_policyLastFetchMs (t : number) (c : Client) : Client :=
  mkClient (apiKey c) (config c) (cachedPolicy c) t (_policyRefreshPromise c).

Definition with_policyRefreshPromise (h : option nat) (c : Client) : Client :=
  mkClient (apiKey c) (config c) (cachedPolicy c) (policyLastFetchMs c) h.

(** ** The monad of an async call *)

Definition M (A : Type) : Type := Env -> World -> Completion A * World.

Definition ret {A : Type} (a : A) : M A := fun _ w => (Normal a, w).

Definition throw {A : Type} (e : Error) : M A := fun _ w => (Abrupt e, w).

(** An evaluation that does not touch the world, inside an async function. *)
Definition lift {A : Type} (c : Completion A) : M A := fun _ w => (c, w).

Definition bind {A B : Type} (m : M A) (k : A -> M B) : M B :=
  fun env w =>
    match m env w with
    | (Normal a, w') => k a env w'
    | (Abrupt e, w') => (Abrupt e, w')
    end.

Declare Scope async_scope.
Delimit Scope async_scope with async.
Notation "x <- m ;; k" := (bind m (fun x => k))
  (at level 61, m at next level, right associativity) : async_scope.
Notation "m ;; k" := (bind m (fun _ => k))
  (at level 61, right associativity) : async_scope.
Open Scope async_scope.

(** [try { body } catch (e) { handler e }] *)
Definition try_catch {A : Type} (body : M A) (handler : Error -> M A) : M A :=
  fun env w =>
    match body env w with
    | (Normal a, w') => (Normal a, w')
    | (Abrupt e, w') => handler e env w'
    end.

(** [try { body } finally { fin }] *)
Definition try_finally {A : Type} (body : M A) (fin : M unit) : M A :=
  fun env w =>
    let '(c, w') := body env w in
    match fin env w' with
    | (Normal _, w'') => (c, w'')
    | (Abrupt e, w'') => (Abrupt e, w'')
    end.

Definition gets {A : Type} (f : Client -> A) : M A :=
  fun _ w => (Normal (f (client w)), w).

Definition assign (f : Client -> Client) : M unit :=
  fun _ w => (Normal tt, set_client f w).

Definition Date_now : M number := fun _ w => (Normal (now w), w).

Definition console_error (label : string) (e : Error) : M unit :=
  fun _ w =>
    (Normal tt,
     mkWorld (client w) (now w) (netlog w) (console w ++ [(label, e)]) (timers w)
       (promises w)).

(** [withTimeout(ms)] arms a timer; the [cleanup] it returns disarms it. *)
Definition withTimeout (ms : number) : M unit :=
  fun _ w =>
    (Normal tt,
     mkWorld (client w) (now w) (netlog w) (console w) (S (timers w)) (promises w)).

Definition cleanup : M unit :=
  fun _ w =>
    (Normal tt,
     mkWorld (client w) (now w) (netlog w) (console w) (pred (timers w)) (promises w)).

(** [fetch(url, init)] sends the request when it is called, and the promise
    it returns settles later: [send] is the call, [receive] the [await]. *)
Definition send (req : Request) : M unit :=
  fun _ w =>
    (Normal tt,
     mkWorld (client w) (now w) (netlog w ++ [req]) (console w) (timers w) (promises w)).

Definition receive (req : Request) : M Response :=
  fun env w =>
    let r := net env req in
    let w' := mkWorld (client w) (arrival r) (netlog w) (console w) (timers w)
                (promises w) in
    match outcome r with
    | NetworkError => (Abrupt TypeError_failed_to_fetch, w')
    | TimedOut => (Abrupt Error_timeout, w')
    | Responded res => (Normal res, w')
    end.

Definition fetch (req : Request) : M Response :=
  send req ;; receive req.

(** [await res.json()] *)
Definition res_json (res : Response) : M json :=
  match payload res with
  | BodyJson j => ret j
  | BodyMalformed => throw SyntaxError_json
  | BodyTimedOut => throw Error_timeout
  end.

Definition new_promise (st : PromiseState) : M nat :=
  fun _ w =>
    (Normal (List.length (promises w)),
     mkWorld (client w) (now w) (netlog w) (console w) (timers w) (promises w ++ [st])).

(** Calling an async function gives a promise.  In the run of one call the
    function has settled by the time its promise is awaited, so the promise
    enters the table fulfilled.  Had the function thrown, the [await] of its
    promise would throw the same error: that is this computation completing
    abruptly. *)
Definition spawn (task : M Policy) : M nat :=
  v <- task ;;
  new_promise (Fulfilled v).

(** [await p]: the value [p] is settled with, or the value the call that
    owns [p] will fulfil it with. *)
Definition awaitPromise (p : nat) : M Policy :=
  fun env w =>
    match nth_error (promises w) p with
    | Some (Fulfilled v) => (Normal v, w)
    | Some Pending | None => (Normal (settles env p), w)
    end.

(** ** The SDK *)

Section Sdk.

(** The two conversions of the JavaScript runtime between numbers and
    program text: the number a string denotes (NaN when it is no numeral),
    and the decimal text of a number.  Neither can throw. *)
Variable StringToNumber : string -> number.
Variable NumberToString : number -> string.

(** [String(v)] for a value that [res.json()] parsed.  An array is joined
    with commas, [null] elements giving the empty text.  An object is
    converted by its [toString] and then its [valueOf]: an object of a JSON
    text inherits both, and gives "[object Object]", unless the text gave it
    a property [toString] of its own; that property is no function, the
    inherited [valueOf] (or an own one, no function either) gives no
    primitive value, and the conversion throws. *)
Fixpoint ToString (v : json) : Completion string :=
  match v with
  | JNull => Normal "null"
  | JBool true => Normal "true"
  | JBool false => Normal "false"
  | JNum n => Normal (NumberToString n)
  | JStr s => Normal s
  | JArr items =>
      join (map (fun x => match x with
                          | JNull => Normal ""
                          | _ => ToString x
                          end) items)
  | JObj fields =>
      match assoc "toString" fields with
      | Some _ => Abrupt TypeError_no_primitive
      | None => Normal "[object Object]"
      end
  end.

(** [Number(v)] for a value that [res.json()] parsed.  An array or an
    object is converted by its [valueOf], which gives the object back (or is
    no function), and then its [toString]: the number its text denotes, or
    the error of [String(v)]. *)
Definition Number (v : json) : Completion number :=
  match v with
  | JNum n => Normal n
  | JBool true => Normal n1
  | JBool false | JNull => Normal n0
  | JStr s => Normal (StringToNumber s)
  | JArr _ | JObj _ => and_then (ToString v) (fun s => Normal (StringToNumber s))
  end.

(** [safeApiCall(label, defaultResult, fn)] *)
Definition safeApiCall {A : Type} (label : string) (defaultResult : A) (fn : M A) : M A :=
  try_catch fn (fun e => console_error label e ;; ret defaultResult).

(** [toUint8Array(data)] *)
Definition toUint8Array (data : ImageInput) : M (list byte) :=
  match data with
  | IUint8Array bytes => ret bytes
  | IArrayBuffer bytes => ret bytes
  | IBlob read =>
      match read with
      | Normal bytes => ret bytes
      | Abrupt e => throw e
      end
  | IOther _ => throw Error_unsupported_image
  end.

(** [new WatchtowerClient(apiKey, config)] *)
Definition constructor (key : string) (cfg : option WatchtowerConfig) : Client :=
  {| apiKey := key;
     config := merge_config cfg;
     cachedPolicy := DEFAULT_POLICY;
     policyLastFetchMs := n0;
     _policyRefreshPromise := None |}.

Definition _headers (c : Client) (extra : list (string * string)) :
  list (string * string) :=
  ("Authorization", String.append "Bearer " (apiKey c)) :: extra.

(** The object literal [policy] that [refreshPolicy] builds from the body,
    its properties evaluated in the order of the source; a threshold that
    [Number] cannot convert makes the evaluation throw. *)
Definition policy_of_json (j : json) : Completion Policy :=
  let blockToxicity := nullish (opt_get j "blockToxicity") (JBool true) in
  let blockSexual := nullish (opt_get j "blockSexual") (JBool true) in
  let blockNsfwImages := nullish (opt_get j "blockNsfwImages") (JBool true) in
  and_then (Number (nullish (opt_get j "toxicityThreshold") (JNum n0_85)))
    (fun toxicityThreshold =>
  and_then (Number (nullish (opt_get j "sexualThreshold") (JNum n0_85)))
    (fun sexualThreshold =>
  and_then (Number (nullish (opt_get j "nsfwThreshold") (JNum n0_85)))
    (fun nsfwThreshold =>
  Normal (mkPolicy blockToxicity blockSexual blockNsfwImages
            toxicityThreshold sexualThreshold nsfwThreshold)))).

Definition policyRequest (c : Client) : Request :=
  {| url := String.append (apiBaseUrl (config c)) "/v1/policy";
     method := GET;
     headers := _headers c [];
     body := NoBody;
     deadlineMs := timeoutMs (config c) |}.

(** The callback of [refreshPolicy] once its [fetch] gave [res]. *)
Definition policyResponse (res : Response) : M Policy :=
  if negb (ok res) then gets cachedPolicy
  else
    j <- res_json res ;;
    policy <- lift (policy_of_json j) ;;
    assign (with_cachedPolicy policy) ;;
    t <- Date_now ;;
    assign (with_policyLastFetchMs t) ;;
    ret policy.

(** The callback [async () => { ... }] that [refreshPolicy] hands to
    [safeApiCall]. *)
Definition fetchPolicy : M Policy :=
  c <- gets (fun c => c) ;;
  withTimeout (timeoutMs (config c)) ;;
  try_finally
    (res <- fetch (policyRequest c) ;;
     policyResponse res)
    cleanup.

(** [refreshPolicy()] *)
Definition refreshPolicy : M Policy :=
  h <- gets _policyRefreshPromise ;;
  match h with
  | Some p => awaitPromise p
  | None =>
      dflt <- gets cachedPolicy ;;
      p <- spawn (safeApiCall "refreshPolicy" dflt fetchPolicy) ;;
      assign (with_policyRefreshPromise (Some p)) ;;
      try_finally
        (awaitPromise p)
        (assign (with_policyRefreshPromise None))
  end.

(** [ageMs > this.config.policyRefreshSeconds * 1000] *)
Definition stale (c : Client) (t : number) : bool :=
  num_gt (num_sub t (policyLastFetchMs c))
         (num_mul (policyRefreshSeconds (config c)) n1000).

(** [_getPolicyMaybeRefresh()] *)
Definition _getPolicyMaybeRefresh : M Policy :=
  t <- Date_now ;;
  c <- gets (fun c => c) ;;
  if stale c t then refreshPolicy else gets cachedPolicy.

(** [emitEvent(type, decision, meta, extra)] as its callers use it: the
    promise is not awaited, so what happens within the caller's run is the
    part up to the [await fetch], which arms the timer and sends the
    request; the rest runs later, inside [emitEvent]'s own [safeApiCall]. *)
Definition emitEvent (type : string) (dec : json) (meta : ContentMeta) (extra : json) :
  M unit :=
  c <- gets (fun c => c) ;;
  t <- Date_now ;;
  let payload :=
    JObj [("type", JStr type); ("decision", dec); ("meta", meta);
          ("extra", extra); ("ts", JNum t)] in
  withTimeout (Math_min (timeoutMs (config c)) n5000) ;;
  send {| url := String.append (apiBaseUrl (config c)) "/v1/events";
          method := POST;
          headers := _headers c [("Content-Type", "application/json")];
          body := JsonBody payload;
          deadlineMs := Math_min (timeoutMs (config c)) n5000 |}.

Definition textRequest (c : Client) (text : string) (meta : ContentMeta) : Request :=
  {| url := String.append (apiBaseUrl (config c)) "/checkText";
     method := POST;
     headers := _headers c [("Content-Type", "application/json")];
     body := JsonBody (JObj [("text", JStr text); ("meta", meta)]);
     deadlineMs := timeoutMs (config c) |}.

(** [checkText(text, meta)] *)
Definition checkText (text : string) (meta : ContentMeta) : M json :=
  safeApiCall "checkText" (JBool true)
    (_getPolicyMaybeRefresh ;;
     c <- gets (fun c => c) ;;
     withTimeout (timeoutMs (config c)) ;;
     try_finally
       (res <- fetch (textRequest c text meta) ;;
        if negb (ok res) then ret (JBool true)
        else
          j <- res_json res ;;
          let isTextPermitted := nullish (opt_get j "isTextPermitted") (JBool true) in
          (if sendEvents (config c)
           then
             shown <- lift (ToString isTextPermitted) ;;
             emitEvent "text_moderated"
               (JStr (if truthy isTextPermitted then "ALLOW" else "BLOCK"))
               meta
               (JObj [("isTextPermitted", JStr shown)])
           else ret tt) ;;
          ret isTextPermitted)
       cleanup).

Definition imageRequest (c : Client) (bytes : list byte) : Request :=
  {| url := String.append (apiBaseUrl (config c)) "/v1/moderate/image";
     method := POST;
     headers := _headers c [("Content-Type", "image/jpeg")];
     body := BytesBody bytes;
     deadlineMs := timeoutMs (config c) |}.

(** [_applyPolicyToImageResult(result, policy)] *)
Definition _applyPolicyToImageResult (result : ImageModerationResult) (policy : Policy) :
  ImageModerationResult :=
  if truthy (blockNsfwImages policy)
     && match nsfwScore result with
        | Some score => num_ge score (nsfwThreshold policy)
        | None => false
        end
  then {| decision := JStr "BLOCK";
          nsfwScore := nsfwScore result;
          reasons := reasons result ++ [JStr "policy_nsfw"] |}
  else result.

Definition sdk_network_error : ImageModerationResult :=
  {| decision := JStr "ALLOW"; nsfwScore := None; reasons := [JStr "sdk_network_error"] |}.

Definition cloud_unavailable : ImageModerationResult :=
  {| decision := JStr "ALLOW"; nsfwScore := None; reasons := [JStr "cloud_unavailable"] |}.

(** The [result] that [checkImageJpeg] reads off a parsed body. *)
Definition result_of_json (j : json) : ImageModerationResult :=
  {| decision := or_else (opt_get j "decision") (JStr "ALLOW");
     nsfwScore := number_or_null (opt_get j "nsfwScore");
     reasons := array_or_empty (opt_get j "reasons") |}.

(** [checkImageJpeg(jpeg, meta)] *)
Definition checkImageJpeg (jpeg : ImageInput) (meta : ContentMeta) :
  M ImageModerationResult :=
  safeApiCall "checkImageJpeg" sdk_network_error
    (policy <- _getPolicyMaybeRefresh ;;
     c <- gets (fun c => c) ;;
     bytes <- toUint8Array jpeg ;;
     withTimeout (timeoutMs (config c)) ;;
     try_finally
       (res <- fetch (imageRequest c bytes) ;;
        if negb (ok res) then ret cloud_unavailable
        else
          j <- res_json res ;;
          let result := result_of_json j in
          (if sendEvents (config c)
           then emitEvent "image_moderated" (decision result) meta
                  (JObj [("nsfwScore",
                          match nsfwScore result with
                          | None => JNull
                          | Some n => JStr (NumberToString n)
                          end)])
           else ret tt) ;;
          ret (_applyPolicyToImageResult result policy))
       cleanup).

(** ** Several calls on one client: the policy store

    [refreshPolicy] suspends once, at [await this._policyRefreshPromise];
    the callback it starts suspends at [await fetch(...)] (and at
    [await res.json()], taken together with it: the client is not touched
    between the two).  A step of the store is what runs between two
    suspensions:
    - [Refresh c]: call [c] enters [refreshPolicy()] and runs to its [await];
    - [Access c t]: call [c] enters [_getPolicyMaybeRefresh()] when the
      clock reads [t];
    - [Settle p r]: the request behind promise [p] is answered by [r]; the
      callback runs to its end and [safeApiCall] settles [p];
    - [Resume c]: the continuation of [c] after its [await] runs, [p] being
      settled. *)

(** The callback up to its [await fetch(...)]: it has sent the request. *)
Definition fetchPolicy_start : M Request :=
  c <- gets (fun c => c) ;;
  withTimeout (timeoutMs (config c)) ;;
  send (policyRequest c) ;;
  ret (policyRequest c).

(** The callback from its [await fetch(...)] on. *)
Definition fetchPolicy_resume (req : Request) : M Policy :=
  try_finally
    (res <- receive req ;;
     policyResponse res)
    cleanup.

Definition Caller : Type := nat.

(** A callback waiting for the network: the promise [safeApiCall] returned
    for it, the [defaultResult] it was given, the request it sent. *)
Record Inflight : Type := mkInflight {
  if_promise : nat;
  if_default : Policy;
  if_request : Request
}.

(** A call of [refreshPolicy] at its [await]: it created the promise
    ([su_owner]) and will run the [finally], or it returned the promise it
    found in the client. *)
Record Suspended : Type := mkSuspended {
  su_caller : Caller;
  su_promise : nat;
  su_owner : bool
}.

Record Returned : Type := mkReturned {
  rt_caller : Caller;
  rt_promise : option nat;
  rt_result : Policy
}.

Record Store : Type := mkStore {
  world : World;
  inflight : list Inflight;
  suspended : list Suspended;
  returned : list Returned
}.

Inductive Event : Type :=
| Refresh (c : Caller)
| Access (c : Caller) (t : number)
| Settle (p : nat) (r : Reply)
| Resume (c : Caller).

Definition handle (s : Store) : option nat :=
  _policyRefreshPromise (client (world s)).

Definition offline : Env :=
  {| net := fun _ => mkReply NetworkError n0; settles := fun _ => DEFAULT_POLICY |}.

Definition answering (r : Reply) : Env :=
  {| net := fun _ => r; settles := fun _ => DEFAULT_POLICY |}.

Definition add_promise (st : PromiseState) (w : World) : World :=
  mkWorld (client w) (now w) (netlog w) (console w) (timers w) (promises w ++ [st]).

Fixpoint update_nth {A : Type} (n : nat) (a : A) (l : list A) : list A :=
  match l, n with
  | [], _ => []
  | _ :: t, O => a :: t
  | h :: t, S n' => h :: update_nth n' a t
  end.

Definition settle_promise (p : nat) (st : PromiseState) (w : World) : World :=
  mkWorld (client w) (now w) (netlog w) (console w) (timers w)
    (update_nth p st (promises w)).

Definition at_time (t : number) (w : World) : World :=
  mkWorld (client w) t (netlog w) (console w) (timers w) (promises w).

Fixpoint take_inflight (p : nat) (l : list Inflight) : option (Inflight * list Inflight) :=
  match l with
  | [] => None
  | fl :: rest =>
      if Nat.eqb (if_promise fl) p then Some (fl, rest)
      else match take_inflight p rest with
           | Some (x, rest') => Some (x, fl :: rest')
           | None => None
           end
  end.

Fixpoint take_caller (c : Caller) (l : list Suspended) : option (Suspended * list Suspended) :=
  match l with
  | [] => None
  | su :: rest =>
      if Nat.eqb (su_caller su) c then Some (su, rest)
      else match take_caller c rest with
           | Some (x, rest') => Some (x, su :: rest')
           | None => None
           end
  end.

Definition is_suspended (c : Caller) (s : Store) : bool :=
  existsb (fun su => Nat.eqb (su_caller su) c) (suspended s).

(** [refreshPolicy()] up to its [await]. *)
Definition enter_refresh (c : Caller) (s : Store) : option Store :=
  match handle s with
  | Some p =>
      Some (mkStore (world s) (inflight s)
              (suspended s ++ [mkSuspended c p false]) (returned s))
  | None =>
      let dflt := cachedPolicy (client (world s)) in
      match fetchPolicy_start offline (world s) with
      | (Normal req, w1) =>
          let p := List.length (promises w1) in
          Some (mkStore
                  (set_client (with_policyRefreshPromise (Some p)) (add_promise Pending w1))
                  (inflight s ++ [mkInflight p dflt req])
                  (suspended s ++ [mkSuspended c p true])
                  (returned s))
      | (Abrupt _, _) => None
      end
  end.

Definition step (s : Store) (e : Event) : option Store :=
  match e with
  | Refresh c =>
      if is_suspended c s then None else enter_refresh c s
  | Access c t =>
      if is_suspended c s then None
      else
        let s0 := mkStore (at_time t (world s)) (inflight s) (suspended s) (returned s) in
        if stale (client (world s)) t then enter_refresh c s0
        else
          Some (mkStore (world s0) (inflight s0) (suspended s0)
                  (returned s0 ++
                   [mkReturned c None (cachedPolicy (client (world s0)))]))
  | Settle p r =>
      match take_inflight p (inflight s), nth_error (promises (world s)) p with
      | Some (fl, rest), Some Pending =>
          match safeApiCall "refreshPolicy" (if_default fl)
                  (fetchPolicy_resume (if_request fl)) (answering r) (world s) with
          | (Normal v, w1) =>
              Some (mkStore (settle_promise p (Fulfilled v) w1) rest
                      (suspended s) (returned s))
          | (Abrupt _, _) => None
          end
      | _, _ => None
      end
  | Resume c =>
      match take_caller c (suspended s) with
      | Some (su, rest) =>
          let w1 :=
            if su_owner su
            then set_client (with_policyRefreshPromise None) (world s)
            else world s in
          match nth_error (promises (world s)) (su_promise su) with
          | Some (Fulfilled v) =>
              Some (mkStore w1 (inflight s) rest
                      (returned s ++ [mkReturned c (Some (su_promise su)) v]))
          | Some Pending | None => None
          end
      | None => None
      end
  end.

Fixpoint run (s : Store) (es : list Event) : option Store :=
  match es with
  | [] => Some s
  | e :: rest =>
      match step s e with
      | Some s' => run s' rest
      | None => None
      end
  end.

(** A client fresh from its constructor, nothing sent, at clock reading [t]. *)
Definition initial (key : string) (cfg : option WatchtowerConfig) (t : number) : Store :=
  {| world := mkWorld (constructor key cfg) t [] [] 0 [];
     inflight := [];
     suspended := [];
     returned := [] |}.

Inductive reachable : Store -> Prop :=
| reach_initial key cfg t : reachable (initial key cfg t)
| reach_step s e s' : reachable s -> step s e = Some s' -> reachable s'.

(** ** Outcomes of the requests, as the claims name them *)

(** A policy refresh fails: transport error, timeout, non-2xx status, or a
    body that [res.json()] cannot read. *)
Definition refresh_failed (o : FetchOutcome) : bool :=
  match o with
  | NetworkError => true
  | TimedOut => true
  | Responded res =>
      negb (ok res)
      || match payload res with
         | BodyJson _ => false
         | BodyMalformed | BodyTimedOut => true
         end
  end.

(** A classification call fails: timeout, transport error, or non-2xx status. *)
Definition call_failed (o : FetchOutcome) : bool :=
  match o with
  | NetworkError | TimedOut => true
  | Responded res => negb (ok res)
  end.

(** ** The invariant of the policy store *)

Definition owners (s : Store) : list Suspended :=
  filter su_owner (suspended s).

Record store_inv (s : Store) : Prop := mkInv {
  (** a callback in flight belongs to the promise kept in the client; it
      was given the policy that is still cached *)
  inv_inflight :
    match handle s with
    | None => inflight s = []
    | Some p =>
        (inflight s = [] /\ exists v, nth_error (promises (world s)) p = Some (Fulfilled v))
        \/ (inflight s =
              [mkInflight p (cachedPolicy (client (world s)))
                 (policyRequest (client (world s)))]
            /\ nth_error (promises (world s)) p = Some Pending)
    end;
  (** a pending promise is the one kept in the client *)
  inv_pending :
    forall q, nth_error (promises (world s)) q = Some Pending -> handle s = Some q;
  (** the call that created the promise kept in the client is the only one
      that will run a [finally] *)
  inv_owner :
    match handle s with
    | None => owners s = []
    | Some p => exists c, owners s = [mkSuspended c p true]
    end;
  (** a suspended call waits for a promise of the table *)
  inv_suspended :
    forall su, In su (suspended s) -> su_promise su < List.length (promises (world s));
  (** one request was sent per promise created *)
  inv_requests :
    List.length (netlog (world s)) = List.length (promises (world s));
  (** a call that waited for a promise returned what the promise holds *)
  inv_returned :
    forall rt p, In rt (returned s) -> rt_promise rt = Some p ->
                 nth_error (promises (world s)) p = Some (Fulfilled (rt_result rt));
  (** the suspended calls are distinct *)
  inv_callers :
    NoDup (map su_caller (suspended s))
}.

(** The stores that can be reached while every policy request that was
    answered failed. *)
Definition no_success (e : Event) : Prop :=
  match e with
  | Settle _ r => refresh_failed (outcome r) = true
  | _ => True
  end.

Inductive unrefreshed : Store -> Prop :=
| unref_initial key cfg t : unrefreshed (initial key cfg t)
| unref_step s e s' :
    unrefreshed s -> no_success e -> step s e = Some s' -> unrefreshed s'.

(** ** The rest of the SDK *)

(** The body of a 2xx answer that [res.json()] could read. *)
Definition readable (o : FetchOutcome) : option json :=
  match o with
  | Responded res =>
      if ok res
      then match payload res with
           | BodyJson j => Some j
           | BodyMalformed | BodyTimedOut => None
           end
      else None
  | NetworkError | TimedOut => None
  end.

(** The request that [emitEvent] sends, [t] being [Date.now()] at the call. *)
Definition eventRequest (c : Client) (type : string) (dec : json) (meta : ContentMeta)
    (extra : json) (t : number) : Request :=
  {| url := String.append (apiBaseUrl (config c)) "/v1/events";
     method := POST;
     headers := _headers c [("Content-Type", "application/json")];
     body := JsonBody (JObj [("type", JStr type); ("decision", dec); ("meta", meta);
                             ("extra", extra); ("ts", JNum t)]);
     deadlineMs := Math_min (timeoutMs (config c)) n5000 |}.

(** [emitEvent(type, decision, meta, extra)] awaited to its end: the whole
    async function, with its own [safeApiCall]. *)
Definition emitEvent_awaited (type : string) (dec : json) (meta : ContentMeta)
    (extra : json) : M unit :=
  c <- gets (fun c => c) ;;
  t <- Date_now ;;
  safeApiCall "emitEvent" tt
    (withTimeout (Math_min (timeoutMs (config c)) n5000) ;;
     try_finally
       (fetch (eventRequest c type dec meta extra t) ;; ret tt)
       cleanup ;;
     ret tt).

(** The value of the header [name] of a request. *)
Fixpoint header_value (name : string) (hs : list (string * string)) : option string :=
  match hs with
  | [] => None
  | (k, v) :: rest => if String.eqb name k then Some v else header_value name rest
  end.

(** The request carries [Authorization: Bearer <apiKey>]. *)
Definition authorized (c : Client) (req : Request) : bool :=
  match header_value "Authorization" (headers req) with
  | Some v => String.eqb v (String.append "Bearer " (apiKey c))
  | None => false
  end.

(** *** The singleton [Watchtower]

    The closure variable [client] is [null] until [init]; [initialized]
    says whether it holds the client object, which is the client of [heap]. *)
Record Singleton : Type := mkSingleton {
  initialized : bool;
  heap : World
}.

Definition Error_not_initialized : Error :=
  mkError "Error" "Watchtower not initialized. Call Watchtower.init(apiKey, config) first.".

(** [Watchtower.init(apiKey, config)] *)
Definition init (key : string) (cfg : option WatchtowerConfig) (s : Singleton) : Singleton :=
  mkSingleton true (set_client (fun _ => constructor key cfg) (heap s)).

(** [_requireClient()]: the client, or the error when there is none. *)
Definition _requireClient (s : Singleton) : Completion World :=
  if initialized s then Normal (heap s) else Abrupt Error_not_initialized.

(** [this._requireClient().method(...)] *)
Definition on_client {A : Type} (method : M A) (env : Env) (s : Singleton) :
  Completion A * Singleton :=
  match _requireClient s with
  | Normal w => let '(r, w') := method env w in (r, mkSingleton true w')
  | Abrupt e => (Abrupt e, s)
  end.

Definition Watchtower_refreshPolicy : Env -> Singleton -> Completion Policy * Singleton :=
  on_client refreshPolicy.

Definition Watchtower_checkText (text : string) (meta : ContentMeta) :
  Env -> Singleton -> Completion json * Singleton :=
  on_client (checkText text meta).

Definition Watchtower_checkImageJpeg (jpeg : ImageInput) (meta : ContentMeta) :
  Env -> Singleton -> Completion ImageModerationResult * Singleton :=
  on_client (checkImageJpeg jpeg meta).

(** ** The mock service (app/api/watchtower/v1) *)

(** What [JSON.stringify] followed by [JSON.parse] makes of a number: NaN
    and the infinities become [null], and [-0] becomes [0]. *)
Definition JSON_number (n : number) : json :=
  match n with
  | S754_nan | S754_infinity _ => JNull
  | S754_zero _ => JNum (S754_zero false)
  | S754_finite _ _ _ => JNum n
  end.

(** [GET /v1/policy]: the body of [policy/route.ts]. *)
Definition mock_policy_body : json :=
  JObj [("blockToxicity", JBool true);
        ("blockSexual", JBool true);
        ("blockNsfwImages", JBool true);
        ("toxicityThreshold", JNum n0_85);
        ("sexualThreshold", JNum n0_9);
        ("nsfwThreshold", JNum n0_85)].

(** [POST /v1/moderate/image]: the body of [moderate/image/route.ts] when
    [Math.random()] gave [randomScore]. *)
Definition mock_image_body (randomScore : number) : json :=
  let blocked := num_gt randomScore n0_85 in
  JObj [("decision", JStr (if blocked then "BLOCK" else "ALLOW"));
        ("nsfwScore", JSON_number randomScore);
        ("reasons", JArr (if blocked then [JStr "mock_nsfw_detected"] else []))].

(** [NextResponse.json(body)]: status 200. *)
Definition NextResponse_json (body : json) : Response :=
  mkResponse 200 (BodyJson body).

(** ** The dashboard (app/page.tsx) *)

Definition n300 : number := S754_finite false 5277655813324800 (-44).

(** The configuration the dashboard gives to [Watchtower.init]. *)
Definition dashboard_config : WatchtowerConfig :=
  {| cfg_apiBaseUrl := Value "/api/watchtower";
     cfg_sendEvents := Missing;
     cfg_policyRefreshSeconds := Value n300;
     cfg_mode := Missing;
     cfg_timeoutMs := Missing |}.

(** The start-up effect of the dashboard:
    [Watchtower.init("mock-api-key", {...}); Watchtower.refreshPolicy()]. *)
Definition dashboard_startup (env : Env) (s : Singleton) : Completion Policy * Singleton :=
  Watchtower_refreshPolicy env (init "mock-api-key" (Some dashboard_config) s).

(** ** Concrete inputs used by the examples below *)

(** 1 700 000 000 000 ms after the epoch (November 2023). *)
Definition t_2023 : number := S754_finite false 6963200000000000 (-12).

Definition demo_world : World :=
  mkWorld (constructor "mock-api-key" None) t_2023 [] [] 0 [].

Definition reply_json (code : nat) (j : json) : Reply :=
  mkReply (Responded (mkResponse code (BodyJson j))) t_2023.

(** The same client one policy fetch later, the policy still fresh. *)
Definition fresh_world : World :=
  mkWorld (with_policyLastFetchMs t_2023 (constructor "mock-api-key" None)) t_2023
    [] [] 0 [].

(** A client that was told never to refresh. *)
Definition never_refresh : WatchtowerConfig :=
  {| cfg_apiBaseUrl := Missing;
     cfg_sendEvents := Missing;
     cfg_policyRefreshSeconds := Value infinity;
     cfg_mode := Missing;
     cfg_timeoutMs := Missing |}.

Definition never_refresh_world : World :=
  mkWorld (constructor "mock-api-key" (Some never_refresh)) t_2023 [] [] 0 [].

(** The image answer of the specification's example: the remote says ALLOW
    with a score of 0.9. *)
Definition allow_with_score_0_9 : json :=
  JObj [("decision", JStr "ALLOW"); ("nsfwScore", JNum n0_9); ("reasons", JArr [])].

(** A text answer whose flag is the number 0. *)
Definition flag_is_zero : json := JObj [("isTextPermitted", JNum n0)].

Definition one_byte : list byte := [xff].

(** The conversions of the runtime, for the examples.  The number of a
    text is given on the empty text (0) and on texts that are no numeral
    (NaN); the examples convert no numeral.  The text of a number is given
    on NaN, the infinities, the zeros, the integers below [2^53] in size and
    the literals 0.85 and 0.9; the examples convert no other number (they
    are sent to the empty text here). *)
Definition demo_StringToNumber (s : string) : number :=
  if String.eqb s "" then n0 else S754_nan.

Definition digits (z : Z) : string :=
  DecimalString.NilZero.string_of_int (Z.to_int z).

Definition demo_NumberToString (n : number) : string :=
  match n with
  | S754_nan => "NaN"
  | S754_infinity false => "Infinity"
  | S754_infinity true => "-Infinity"
  | S754_zero _ => "0"
  | S754_finite sign m e =>
      let z := if sign then Z.neg m else Z.pos m in
      if (0 <=? e)%Z then
        if (Z.abs (z * 2 ^ e) <? 2 ^ 53)%Z then digits (z * 2 ^ e) else ""
      else if (Z.pos m mod 2 ^ (- e) =? 0)%Z then digits (z / 2 ^ (- e))
      else if SFeqb n n0_85 then "0.85"
      else if SFeqb n n0_9 then "0.9"
      else ""
  end.

(** A client with telemetry switched off, its policy still fresh. *)
Definition no_events : WatchtowerConfig :=
  {| cfg_apiBaseUrl := Missing;
     cfg_sendEvents := Value false;
     cfg_policyRefreshSeconds := Missing;
     cfg_mode := Missing;
     cfg_timeoutMs := Missing |}.

Definition fresh_silent_world : World :=
  mkWorld (with_policyLastFetchMs t_2023 (constructor "mock-api-key" (Some no_events)))
    t_2023 [] [] 0 [].

(** The client of the dashboard before its first policy fetch. *)
Definition dashboard_world : World :=
  mkWorld (constructor "mock-api-key" (Some dashboard_config)) t_2023 [] [] 0 [].

(** The mock service behind the dashboard, for the examples: the policy
    route at its URL, and the image route, with [randomScore] as its draw
    of [Math.random()], for the other requests. *)
Definition mock_env (randomScore : number) : Env :=
  {| net := fun req =>
       if String.eqb (url req) "/api/watchtower/v1/policy"
       then mkReply (Responded (NextResponse_json mock_policy_body)) t_2023
       else mkReply (Responded (NextResponse_json (mock_image_body randomScore))) t_2023;
     settles := fun _ => DEFAULT_POLICY |}.

(** An object without primitive value: the parsed text [{"toString": 0}]. *)
Definition no_primitive : json := JObj [("toString", JNum n0)].

(** A policy answer whose [nsfwThreshold] has no primitive value, and a
    text answer whose flag has none. *)
Definition threshold_without_primitive : json := JObj [("nsfwThreshold", no_primitive)].

Definition flag_without_primitive : json := JObj [("isTextPermitted", no_primitive)].

(** * Properties *)

(** ** Numbers *)

Lemma SFcompare_antisym (a b : number) :
  SFcompare b a = option_map CompOpp (SFcompare a b).
Proof.
  destruct a as [sa|sa| |sa ma ea], b as [sb|sb| |sb mb eb]; simpl; try reflexivity;
    try (destruct sa; reflexivity); try (destruct sb; reflexivity);
    try (destruct sa, sb; reflexivity).
  destruct sa, sb; simpl; try reflexivity;
    rewrite (Z.compare_antisym ea eb); destruct (ea ?= eb)%Z; simpl; try reflexivity.
  - rewrite CompOpp_involutive. f_equal. symmetry. apply ZC4.
  - f_equal. apply ZC4.
Qed.

(** [a <= b] excludes [a > b]. *)
Lemma num_le_not_gt (a b : number) : num_le a b = true -> num_gt a b = false.
Proof.
  unfold num_le, num_gt, SFleb, SFltb. rewrite (SFcompare_antisym a b).
  destruct (SFcompare a b) as [[ | | ]|]; simpl; congruence.
Qed.

(** The literals are canonical binary64 values; the integers are exact, and
    the mantissas of 0.85 and 0.9 are the integers nearest to [0.85 * 2^53]
    and [0.9 * 2^53]. *)
Lemma literals_canonical :
  forallb (valid_binary prec emax)
    [n0; n1; n0_85; n0_9; n60; n1000; n5000; n20000; infinity; t_2023] = true.
Proof. reflexivity. Qed.

Lemma literals_exact :
  n1 = S754_finite false (Z.to_pos (1 * 2 ^ 52)) (-52) /\
  n60 = S754_finite false (Z.to_pos (60 * 2 ^ 47)) (-47) /\
  n1000 = S754_finite false (Z.to_pos (1000 * 2 ^ 43)) (-43) /\
  n5000 = S754_finite false (Z.to_pos (5000 * 2 ^ 40)) (-40) /\
  n20000 = S754_finite false (Z.to_pos (20000 * 2 ^ 38)) (-38) /\
  t_2023 = S754_finite false (Z.to_pos (1700000000000 * 2 ^ 12)) (-12).
Proof. repeat split; reflexivity. Qed.

Lemma literals_nearest :
  (exists m, n0_85 = S754_finite false m (-53) /\
             (Z.abs (100 * Z.pos m - 85 * 2 ^ 53) <= 50)%Z) /\
  (exists m, n0_9 = S754_finite false m (-53) /\
             (Z.abs (10 * Z.pos m - 9 * 2 ^ 53) <= 5)%Z).
Proof. split; eexists; (split; [reflexivity | vm_compute; discriminate]). Qed.

(** ** The monad *)

Lemma safeApiCall_normal {A : Type} (label : string) (d : A) (fn : M A) env w :
  exists a w', safeApiCall label d fn env w = (Normal a, w').
Proof.
  unfold safeApiCall, try_catch. destruct (fn env w) as [[a|e] w'].
  - eauto.
  - unfold bind, console_error, ret. eauto.
Qed.

(** ** Local enforcement *)

Lemma applyPolicy_forces_block result policy score :
  truthy (blockNsfwImages policy) = true ->
  nsfwScore result = Some score ->
  num_ge score (nsfwThreshold policy) = true ->
  _applyPolicyToImageResult result policy =
  {| decision := JStr "BLOCK";
     nsfwScore := Some score;
     reasons := reasons result ++ [JStr "policy_nsfw"] |}.
Proof.
  intros Hb Hs Hge. unfold _applyPolicyToImageResult.
  now rewrite Hb, Hs, Hge.
Qed.

(** A decision is left as it is or becomes BLOCK. *)
Lemma applyPolicy_escalates result policy :
  decision (_applyPolicyToImageResult result policy) = decision result \/
  decision (_applyPolicyToImageResult result policy) = JStr "BLOCK".
Proof.
  unfold _applyPolicyToImageResult.
  destruct (truthy (blockNsfwImages policy) && _); [right | left]; reflexivity.
Qed.

(** C6: a result whose decision is BLOCK keeps the decision BLOCK through
    [_applyPolicyToImageResult], whatever the score, the threshold and the
    toggles of the policy are. *)
Theorem C6_block_is_never_relaxed result policy :
  decision result = JStr "BLOCK" ->
  decision (_applyPolicyToImageResult result policy) = JStr "BLOCK".
Proof.
  intros H. destruct (applyPolicy_escalates result policy) as [E|E]; congruence.
Qed.

(** ** The policy refresh *)

Ltac unfold_m :=
  cbv beta iota delta
    [safeApiCall try_catch try_finally bind ret throw lift gets assign Date_now
     console_error
     withTimeout cleanup send receive fetch res_json spawn new_promise awaitPromise
     fetchPolicy fetchPolicy_start fetchPolicy_resume policyResponse refreshPolicy
     _getPolicyMaybeRefresh emitEvent toUint8Array set_client add_promise at_time
     with_cachedPolicy with_policyLastFetchMs with_policyRefreshPromise];
  cbn [client now netlog console timers promises apiKey config cachedPolicy
       policyLastFetchMs _policyRefreshPromise outcome arrival fst snd].

(** The callback is its part before the [await fetch] followed by its part
    after it. *)
Lemma fetchPolicy_split env w :
  fetchPolicy env w = (req <- fetchPolicy_start ;; fetchPolicy_resume req) env w.
Proof. reflexivity. Qed.

Lemma fetchPolicy_start_sends env w :
  fetchPolicy_start env w =
  (Normal (policyRequest (client w)),
   mkWorld (client w) (now w) (netlog w ++ [policyRequest (client w)]) (console w)
     (S (timers w)) (promises w)).
Proof. reflexivity. Qed.

Lemma safeApiCall_fetchPolicy d env w :
  safeApiCall "refreshPolicy" d fetchPolicy env w =
  safeApiCall "refreshPolicy" d (fetchPolicy_resume (policyRequest (client w))) env
    (snd (fetchPolicy_start env w)).
Proof. reflexivity. Qed.

(** However the request is answered, [safeApiCall] fulfils the promise; the
    callback touches nothing but [cachedPolicy] and [policyLastFetchMs], and
    when it fails it touches neither. *)
Lemma resume_settles d req env w :
  exists v w1,
    safeApiCall "refreshPolicy" d (fetchPolicy_resume req) env w = (Normal v, w1) /\
    netlog w1 = netlog w /\ promises w1 = promises w /\
    apiKey (client w1) = apiKey (client w) /\
    config (client w1) = config (client w) /\
    _policyRefreshPromise (client w1) = _policyRefreshPromise (client w) /\
    (d = cachedPolicy (client w) -> v = cachedPolicy (client w1)) /\
    (refresh_failed (outcome (net env req)) = true ->
     client w1 = client w /\ v = cachedPolicy (client w) \/ client w1 = client w /\ v = d).
Proof.
  unfold_m. destruct (net env req) as [o t]; cbn [outcome arrival].
  destruct o as [ | | res]; cbn [refresh_failed];
    [ | | destruct (ok res); cbn [negb orb];
          [destruct (payload res) as [j| | ]; [destruct (policy_of_json j) as [pol|e]| | ];
           cbn | ] ];
    do 2 eexists; repeat split; intros; try reflexivity; try discriminate; auto.
Qed.

(** A 2xx answer with a readable body replaces the cached policy and stamps
    it with the clock. *)
Lemma resume_success d req env w res j policy :
  outcome (net env req) = Responded res -> ok res = true -> payload res = BodyJson j ->
  policy_of_json j = Normal policy ->
  safeApiCall "refreshPolicy" d (fetchPolicy_resume req) env w =
  (Normal policy,
   mkWorld
     (with_policyLastFetchMs (arrival (net env req))
        (with_cachedPolicy policy (client w)))
     (arrival (net env req)) (netlog w) (console w) (pred (timers w)) (promises w)).
Proof.
  intros Ho Hok Hp Hj. unfold_m. rewrite Ho, Hok. cbn [negb]. rewrite Hp, Hj.
  reflexivity.
Qed.

(** A 2xx answer with a readable body from which no policy can be built
    ([Number] throws on a threshold): the error is caught by [safeApiCall],
    which logs it and gives the default; the client is not touched. *)
Lemma resume_no_policy d req env w res j e :
  outcome (net env req) = Responded res -> ok res = true -> payload res = BodyJson j ->
  policy_of_json j = Abrupt e ->
  safeApiCall "refreshPolicy" d (fetchPolicy_resume req) env w =
  (Normal d,
   mkWorld (client w) (arrival (net env req)) (netlog w)
     (console w ++ [("refreshPolicy", e)]) (pred (timers w)) (promises w)).
Proof.
  intros Ho Hok Hp Hj. unfold_m. rewrite Ho, Hok. cbn [negb]. rewrite Hp, Hj.
  reflexivity.
Qed.

Lemma nth_error_snoc {A : Type} (l : list A) (a : A) :
  nth_error (l ++ [a]) (List.length l) = Some a.
Proof. induction l as [|x l IH]; simpl; auto. Qed.

(** A caller that finds a promise in the client waits for that promise and
    does nothing else. *)
Lemma refreshPolicy_attached env w p :
  _policyRefreshPromise (client w) = Some p ->
  refreshPolicy env w = awaitPromise p env w.
Proof. intros H. cbv [refreshPolicy bind gets]. now rewrite H. Qed.

(** A caller that finds none runs the callback under [safeApiCall], and
    leaves the client with no promise. *)
Lemma refreshPolicy_owner env w v w1 :
  _policyRefreshPromise (client w) = None ->
  safeApiCall "refreshPolicy" (cachedPolicy (client w)) fetchPolicy env w = (Normal v, w1) ->
  refreshPolicy env w =
  (Normal v,
   mkWorld (with_policyRefreshPromise None (client w1)) (now w1) (netlog w1) (console w1)
     (timers w1) (promises w1 ++ [Fulfilled v])).
Proof.
  intros Hn Hs. cbv [refreshPolicy bind gets spawn]. rewrite Hn, Hs.
  cbv [new_promise assign try_finally awaitPromise set_client].
  cbn [promises client now netlog console timers].
  rewrite nth_error_snoc. reflexivity.
Qed.

Lemma refreshPolicy_normal env w :
  exists v w1,
    refreshPolicy env w = (Normal v, w1) /\
    apiKey (client w1) = apiKey (client w) /\
    config (client w1) = config (client w).
Proof.
  destruct (_policyRefreshPromise (client w)) as [p|] eqn:Hh.
  - rewrite (refreshPolicy_attached _ _ _ Hh). unfold awaitPromise.
    destruct (nth_error (promises w) p) as [[|v]|]; eauto.
  - destruct (resume_settles (cachedPolicy (client w)) (policyRequest (client w)) env
                (snd (fetchPolicy_start env w)))
      as (v & w1 & Hs & _ & _ & Hk & Hc & _).
    rewrite <- safeApiCall_fetchPolicy in Hs.
    rewrite (refreshPolicy_owner _ _ _ _ Hh Hs).
    do 2 eexists. split; [reflexivity|]. cbn. split; assumption.
Qed.

Lemma getPolicy_fresh env w :
  stale (client w) (now w) = false ->
  _getPolicyMaybeRefresh env w = (Normal (cachedPolicy (client w)), w).
Proof. intros H. cbv [_getPolicyMaybeRefresh bind Date_now gets]. now rewrite H. Qed.

Lemma getPolicy_stale env w :
  stale (client w) (now w) = true ->
  _getPolicyMaybeRefresh env w = refreshPolicy env w.
Proof. intros H. cbv [_getPolicyMaybeRefresh bind Date_now gets]. now rewrite H. Qed.

(** [_getPolicyMaybeRefresh] never throws, and leaves the API key and the
    configuration as they are. *)
Lemma getPolicy_normal env w :
  exists policy w1,
    _getPolicyMaybeRefresh env w = (Normal policy, w1) /\
    apiKey (client w1) = apiKey (client w) /\
    config (client w1) = config (client w).
Proof.
  destruct (stale (client w) (now w)) eqn:Hs.
  - rewrite (getPolicy_stale _ _ Hs). apply refreshPolicy_normal.
  - rewrite (getPolicy_fresh _ _ Hs). eauto.
Qed.

(** C4: when the age of the policy, [now - policyLastFetchMs], is at most
    [policyRefreshSeconds * 1000], [_getPolicyMaybeRefresh] returns the
    cached policy and leaves the world as it was: no request is sent. *)
Theorem C4_fresh_policy_is_served_from_cache env w :
  num_le (num_sub (now w) (policyLastFetchMs (client w)))
         (num_mul (policyRefreshSeconds (config (client w))) n1000) = true ->
  _getPolicyMaybeRefresh env w = (Normal (cachedPolicy (client w)), w) /\
  netlog (snd (_getPolicyMaybeRefresh env w)) = netlog w.
Proof.
  intros H. apply num_le_not_gt in H.
  assert (E : _getPolicyMaybeRefresh env w = (Normal (cachedPolicy (client w)), w))
    by (apply getPolicy_fresh; exact H).
  split; [exact E | now rewrite E].
Qed.

Lemma with_no_promise_id c :
  _policyRefreshPromise c = None -> with_policyRefreshPromise None c = c.
Proof. destruct c; cbn; intros ->; reflexivity. Qed.

(** The outcome of [refreshPolicy] for the caller that performs the refresh. *)
Lemma refreshPolicy_performs env w :
  _policyRefreshPromise (client w) = None ->
  exists v w',
    refreshPolicy env w = (Normal v, w') /\
    netlog w' = netlog w ++ [policyRequest (client w)] /\
    _policyRefreshPromise (client w') = None /\
    v = cachedPolicy (client w') /\
    (refresh_failed (outcome (net env (policyRequest (client w)))) = true ->
     client w' = client w).
Proof.
  intros Hh.
  destruct (resume_settles (cachedPolicy (client w)) (policyRequest (client w)) env
              (snd (fetchPolicy_start env w)))
    as (v & w1 & Hs & Hlog & _ & _ & _ & Hp & Hv & Hf).
  rewrite <- safeApiCall_fetchPolicy in Hs.
  exists v. eexists. split; [apply (refreshPolicy_owner _ _ _ _ Hh Hs)|].
  cbn in *. repeat split.
  - exact Hlog.
  - now apply Hv.
  - intros F. apply Hf in F.
    assert (E : client w1 = client w) by (destruct F as [[E _]|[E _]]; exact E).
    rewrite E. now apply with_no_promise_id.
Qed.

(** A 2xx answer with a readable body: the policy read off the body is
    returned and cached, and the timestamp is the clock at that moment.
    Fields that are missing or [null] take their defaults, so that a body
    that is JSON but no object gives the default values. *)
Lemma refreshPolicy_success env w res j policy :
  _policyRefreshPromise (client w) = None ->
  outcome (net env (policyRequest (client w))) = Responded res ->
  ok res = true -> payload res = BodyJson j ->
  policy_of_json j = Normal policy ->
  exists w',
    refreshPolicy env w = (Normal policy, w') /\
    cachedPolicy (client w') = policy /\
    policyLastFetchMs (client w') = arrival (net env (policyRequest (client w))) /\
    _policyRefreshPromise (client w') = None.
Proof.
  intros Hh Ho Hok Hp Hj.
  assert (Hs := resume_success (cachedPolicy (client w)) (policyRequest (client w)) env
                  (snd (fetchPolicy_start env w)) res j policy Ho Hok Hp Hj).
  rewrite <- safeApiCall_fetchPolicy in Hs.
  eexists. split; [exact (refreshPolicy_owner _ _ _ _ Hh Hs)|].
  repeat split.
Qed.

Lemma policy_of_json_not_an_object j :
  (forall fields, j <> JObj fields) -> policy_of_json j = Normal DEFAULT_POLICY.
Proof. intros H. destruct j; try reflexivity. now elim (H fields). Qed.

(** C3: when the policy refresh fails (transport error, timeout, non-2xx
    status, unreadable body), [refreshPolicy] returns the policy that was
    cached before, [cachedPolicy] and [policyLastFetchMs] are what they were,
    and no promise is left in the client, so that the next access that finds
    the policy stale sends a new policy request. *)
Theorem C3_failed_refresh_keeps_cache_and_timestamp env w :
  _policyRefreshPromise (client w) = None ->
  refresh_failed (outcome (net env (policyRequest (client w)))) = true ->
  exists w',
    refreshPolicy env w = (Normal (cachedPolicy (client w)), w') /\
    cachedPolicy (client w') = cachedPolicy (client w) /\
    policyLastFetchMs (client w') = policyLastFetchMs (client w) /\
    _policyRefreshPromise (client w') = None /\
    forall env2 t,
      stale (client w') t = true ->
      netlog (snd (_getPolicyMaybeRefresh env2 (at_time t w'))) =
      netlog w' ++ [policyRequest (client w')].
Proof.
  intros Hh Hf.
  destruct (refreshPolicy_performs env w Hh) as (v & w' & Hr & _ & Hn & Hv & Hc).
  specialize (Hc Hf). exists w'. rewrite Hc in Hv. subst v.
  repeat split; try (now rewrite Hc); try exact Hr; try exact Hn.
  intros env2 t Hst.
  rewrite getPolicy_stale by exact Hst.
  destruct (refreshPolicy_performs env2 (at_time t w') Hn) as (v2 & w2 & Hr2 & Hl2 & _).
  rewrite Hr2. exact Hl2.
Qed.

(** ** The text check *)

Lemma textRequest_ext c1 c2 text meta :
  apiKey c1 = apiKey c2 -> config c1 = config c2 ->
  textRequest c1 text meta = textRequest c2 text meta.
Proof. intros Hk Hc. unfold textRequest, _headers. now rewrite Hk, Hc. Qed.

Lemma imageRequest_ext c1 c2 bytes :
  apiKey c1 = apiKey c2 -> config c1 = config c2 ->
  imageRequest c1 bytes = imageRequest c2 bytes.
Proof. intros Hk Hc. unfold imageRequest, _headers. now rewrite Hk, Hc. Qed.

Ltac safe_call_settles :=
  match goal with
  | |- context [safeApiCall ?l ?d ?f ?env ?w] =>
      let v := fresh "v" in
      let w' := fresh "w'" in
      let E := fresh "E" in
      destruct (safeApiCall_normal l d f env w) as (v & w' & E);
      exists v; rewrite E; reflexivity
  end.

Lemma checkText_never_throws text meta env w :
  exists v, fst (checkText text meta env w) = Normal v.
Proof. unfold checkText. safe_call_settles. Qed.

(** C7: when the classification request of [checkText] times out, fails in
    transport or is answered with a non-2xx status, [checkText] resolves to
    [true]; and [checkText] never rejects, whatever the network does. *)
Theorem C7_checkText_fails_open_to_true text meta env w :
  call_failed (outcome (net env (textRequest (client w) text meta))) = true ->
  fst (checkText text meta env w) = Normal (JBool true) /\
  forall env' w', exists v, fst (checkText text meta env' w') = Normal v.
Proof.
  intros Hf. split; [|intros; apply checkText_never_throws].
  destruct (getPolicy_normal env w) as (policy & w1 & Hg & Hk & Hc).
  rewrite <- (textRequest_ext _ _ text meta Hk Hc) in Hf.
  cbv [checkText safeApiCall try_catch bind]. rewrite Hg.
  unfold_m. destruct (net env (textRequest (client w1) text meta)) as [o t].
  cbn [outcome arrival] in *.
  destruct o as [ | | res]; cbn [call_failed] in Hf; try reflexivity.
  rewrite Hf. reflexivity.
Qed.

(** What [checkText] resolves to on a 2xx answer with a readable body: the
    value of [isTextPermitted] itself unless it is missing or [null]; and
    the fallback [true] when telemetry is on and [String] throws on that
    value. *)
Lemma checkText_on_success text meta env w res j :
  outcome (net env (textRequest (client w) text meta)) = Responded res ->
  ok res = true -> payload res = BodyJson j ->
  fst (checkText text meta env w) =
  Normal (let isTextPermitted := nullish (opt_get j "isTextPermitted") (JBool true) in
          if sendEvents (config (client w))
          then match ToString isTextPermitted with
               | Normal _ => isTextPermitted
               | Abrupt _ => JBool true
               end
          else isTextPermitted).
Proof.
  intros Ho Hok Hp.
  destruct (getPolicy_normal env w) as (policy & w1 & Hg & Hk & Hc).
  rewrite <- (textRequest_ext _ _ text meta Hk Hc) in Ho. rewrite <- Hc.
  cbv [checkText safeApiCall try_catch bind]. rewrite Hg.
  unfold_m. rewrite Ho, Hok. cbn [negb]. rewrite Hp. cbv zeta.
  destruct (sendEvents (config (client w1))); [|reflexivity].
  destruct (ToString (nullish (opt_get j "isTextPermitted") (JBool true)));
    reflexivity.
Qed.

(** [String] returns on every value that is no array and no object. *)
Lemma ToString_primitive v :
  (forall items, v <> JArr items) -> (forall fields, v <> JObj fields) ->
  exists s, ToString v = Normal s.
Proof.
  intros Ha Ho. destruct v as [ |[|]|n|s|items|fields]; cbn; eauto.
  - now elim (Ha items).
  - now elim (Ho fields).
Qed.

(** A 2xx answer without the flag, or with the flag [null], gives [true]. *)
Lemma checkText_missing_flag text meta env w res j :
  outcome (net env (textRequest (client w) text meta)) = Responded res ->
  ok res = true -> payload res = BodyJson j ->
  opt_get j "isTextPermitted" = None \/ opt_get j "isTextPermitted" = Some JNull ->
  fst (checkText text meta env w) = Normal (JBool true).
Proof.
  intros Ho Hok Hp Hm. rewrite (checkText_on_success _ _ _ _ _ _ Ho Hok Hp).
  destruct Hm as [-> | ->]; cbn; destruct (sendEvents _); reflexivity.
Qed.

(** After the policy step, [checkText] does not touch the client. *)
Lemma checkText_client text meta env w :
  client (snd (checkText text meta env w)) =
  client (snd (_getPolicyMaybeRefresh env w)).
Proof.
  destruct (getPolicy_normal env w) as (policy & w1 & Hg & _).
  cbv [checkText safeApiCall try_catch bind]. rewrite Hg.
  unfold_m. destruct (net env (textRequest (client w1) text meta)) as [o t].
  cbn [outcome arrival].
  destruct o as [ | | res]; try reflexivity.
  destruct (ok res); cbn [negb]; [|reflexivity].
  destruct (payload res) as [j| | ]; try reflexivity.
  destruct (sendEvents (config (client w1))); [|reflexivity].
  destruct (ToString (nullish (opt_get j "isTextPermitted") (JBool true)));
    reflexivity.
Qed.

(** C8: on a 2xx answer whose body carries an [isTextPermitted] that is
    not [null], [checkText] resolves to that value as it is, boolean or not,
    when telemetry is off or [String] returns on the value (as it does on
    every number, string and boolean); a malformed flag is not turned into
    [true]. *)
Theorem C8_checkText_returns_the_flag_unchecked text meta env w res j v :
  outcome (net env (textRequest (client w) text meta)) = Responded res ->
  ok res = true -> payload res = BodyJson j ->
  opt_get j "isTextPermitted" = Some v -> v <> JNull ->
  sendEvents (config (client w)) = false \/
  ((forall items, v <> JArr items) /\ (forall fields, v <> JObj fields)) \/
  (exists s, ToString v = Normal s) ->
  fst (checkText text meta env w) = Normal v.
Proof.
  intros Ho Hok Hp Hv Hn Hs.
  rewrite (checkText_on_success _ _ _ _ _ _ Ho Hok Hp), Hv. cbv zeta.
  assert (E : nullish (Some v) (JBool true) = v)
    by (destruct v; try reflexivity; now elim Hn).
  rewrite E. destruct (sendEvents (config (client w))); [|reflexivity].
  destruct Hs as [Hs | [[Ha Hob] | [s Hs]]]; [discriminate Hs | | now rewrite Hs].
  destruct (ToString_primitive v Ha Hob) as [s Hs]. now rewrite Hs.
Qed.

(** ** The image check *)

(** [toUint8Array] neither reads nor changes the world. *)
Lemma toUint8Array_pure jpeg env w env' w' :
  toUint8Array jpeg env w = (fst (toUint8Array jpeg env' w'), w).
Proof. destruct jpeg as [b|b|[b|e]|v]; reflexivity. Qed.

Lemma toUint8Array_unsupported jpeg env w :
  supported jpeg = false ->
  toUint8Array jpeg env w = (Abrupt Error_unsupported_image, w).
Proof. destruct jpeg as [b|b|r|v]; try discriminate. reflexivity. Qed.

Lemma checkImageJpeg_never_throws jpeg meta env w :
  exists v, fst (checkImageJpeg jpeg meta env w) = Normal v.
Proof. unfold checkImageJpeg. safe_call_settles. Qed.

(** What [checkImageJpeg] resolves to on a 2xx answer with a readable body:
    the result read off the body, put through the local enforcement with the
    policy that [_getPolicyMaybeRefresh] gave. *)
Lemma checkImageJpeg_on_success jpeg meta env w policy w1 bytes res j :
  _getPolicyMaybeRefresh env w = (Normal policy, w1) ->
  fst (toUint8Array jpeg env w1) = Normal bytes ->
  outcome (net env (imageRequest (client w1) bytes)) = Responded res ->
  ok res = true -> payload res = BodyJson j ->
  fst (checkImageJpeg jpeg meta env w) =
  Normal (_applyPolicyToImageResult (result_of_json j) policy).
Proof.
  intros Hg Hb Ho Hok Hp.
  cbv [checkImageJpeg safeApiCall try_catch bind]. rewrite Hg.
  cbv [gets]. cbn [client].
  rewrite (toUint8Array_pure jpeg env w1 env w1), Hb.
  unfold_m. rewrite Ho, Hok. cbn [negb]. rewrite Hp.
  destruct (sendEvents (config (client w1))); reflexivity.
Qed.

(** C5: on a 2xx image answer with a readable body whose [nsfwScore] is a
    number, if the policy in force has a [blockNsfwImages] that counts as
    true ([true] itself in particular) and [nsfwScore >= nsfwThreshold],
    [checkImageJpeg] resolves to decision BLOCK, the score, and the reasons
    of the answer (none if it carried no array) followed by ["policy_nsfw"],
    whatever decision the answer carried. *)
Theorem C5_nsfw_score_over_threshold_forces_block
    jpeg meta env w policy w1 bytes res j score :
  _getPolicyMaybeRefresh env w = (Normal policy, w1) ->
  fst (toUint8Array jpeg env w1) = Normal bytes ->
  outcome (net env (imageRequest (client w1) bytes)) = Responded res ->
  ok res = true -> payload res = BodyJson j ->
  opt_get j "nsfwScore" = Some (JNum score) ->
  truthy (blockNsfwImages policy) = true ->
  num_ge score (nsfwThreshold policy) = true ->
  fst (checkImageJpeg jpeg meta env w) =
  Normal {| decision := JStr "BLOCK";
            nsfwScore := Some score;
            reasons := array_or_empty (opt_get j "reasons") ++ [JStr "policy_nsfw"] |}.
Proof.
  intros Hg Hb Ho Hok Hp Hs Ht Hge.
  rewrite (checkImageJpeg_on_success _ _ _ _ _ _ _ _ _ Hg Hb Ho Hok Hp).
  f_equal. apply applyPolicy_forces_block; auto.
  unfold result_of_json. cbn [nsfwScore]. now rewrite Hs.
Qed.

(** A BLOCK of the remote service is the decision of [checkImageJpeg]. *)
Lemma checkImageJpeg_keeps_remote_block jpeg meta env w policy w1 bytes res j :
  _getPolicyMaybeRefresh env w = (Normal policy, w1) ->
  fst (toUint8Array jpeg env w1) = Normal bytes ->
  outcome (net env (imageRequest (client w1) bytes)) = Responded res ->
  ok res = true -> payload res = BodyJson j ->
  opt_get j "decision" = Some (JStr "BLOCK") ->
  exists result,
    fst (checkImageJpeg jpeg meta env w) = Normal result /\
    decision result = JStr "BLOCK".
Proof.
  intros Hg Hb Ho Hok Hp Hd.
  rewrite (checkImageJpeg_on_success _ _ _ _ _ _ _ _ _ Hg Hb Ho Hok Hp).
  eexists. split; [reflexivity|].
  destruct (applyPolicy_escalates (result_of_json j) policy) as [E|E]; rewrite E;
    [|reflexivity].
  unfold result_of_json. cbn [decision]. now rewrite Hd.
Qed.

(** C9: with image bytes at hand, [checkImageJpeg] resolves to ALLOW
    without a score and with reasons [["sdk_network_error"]] when the image
    request fails in transport (timeout, abort, transport error), and to
    ALLOW without a score and with reasons [["cloud_unavailable"]] when the
    request is answered with a non-2xx status. *)
Theorem C9_two_fail_open_results jpeg meta env w bytes :
  fst (toUint8Array jpeg env w) = Normal bytes ->
  (failed_in_transport (outcome (net env (imageRequest (client w) bytes))) = true ->
   fst (checkImageJpeg jpeg meta env w) = Normal sdk_network_error) /\
  (forall res,
     outcome (net env (imageRequest (client w) bytes)) = Responded res ->
     ok res = false ->
     fst (checkImageJpeg jpeg meta env w) = Normal cloud_unavailable).
Proof.
  intros Hb.
  destruct (getPolicy_normal env w) as (policy & w1 & Hg & Hk & Hc).
  rewrite <- (imageRequest_ext _ _ bytes Hk Hc).
  split; [intros Hf | intros res Ho Hok];
    cbv [checkImageJpeg safeApiCall try_catch bind]; rewrite Hg;
    cbv [gets]; cbn [client];
    rewrite (toUint8Array_pure jpeg env w1 env w), Hb; unfold_m.
  - destruct (outcome (net env (imageRequest (client w1) bytes))); try discriminate;
      reflexivity.
  - rewrite Ho, Hok. reflexivity.
Qed.

(** C1: an input that is none of [Uint8Array], [ArrayBuffer], [Blob] makes
    [toUint8Array] throw, inside the [safeApiCall] of [checkImageJpeg]: the
    call resolves to the fallback ALLOW result with reasons
    [["sdk_network_error"]], the error goes to the console, and nothing is
    sent beyond what [_getPolicyMaybeRefresh] sent. *)
Theorem C1_unsupported_input_resolves_to_fallback jpeg meta env w :
  supported jpeg = false ->
  fst (toUint8Array jpeg env w) = Abrupt Error_unsupported_image /\
  fst (checkImageJpeg jpeg meta env w) = Normal sdk_network_error /\
  netlog (snd (checkImageJpeg jpeg meta env w)) =
  netlog (snd (_getPolicyMaybeRefresh env w)) /\
  console (snd (checkImageJpeg jpeg meta env w)) =
  console (snd (_getPolicyMaybeRefresh env w))
  ++ [("checkImageJpeg", Error_unsupported_image)].
Proof.
  intros Hs. split; [now rewrite toUint8Array_unsupported|].
  destruct (getPolicy_normal env w) as (policy & w1 & Hg & _).
  cbv [checkImageJpeg safeApiCall try_catch bind]. rewrite Hg.
  cbv [gets]. cbn [client]. rewrite (toUint8Array_unsupported _ _ _ Hs).
  repeat split.
Qed.

(** ** The policy store: lists *)

Lemma update_nth_length {A : Type} (n : nat) (a : A) (l : list A) :
  List.length (update_nth n a l) = List.length l.
Proof. revert n; induction l as [|x l IH]; intros [|n]; simpl; auto. Qed.

Lemma nth_error_update_nth_eq {A : Type} (n : nat) (a : A) (l : list A) :
  n < List.length l -> nth_error (update_nth n a l) n = Some a.
Proof.
  revert n; induction l as [|x l IH]; intros [|n] H; simpl in *; try lia; auto.
  apply IH. lia.
Qed.

Lemma nth_error_update_nth_neq {A : Type} (n m : nat) (a : A) (l : list A) :
  m <> n -> nth_error (update_nth n a l) m = nth_error l m.
Proof.
  revert n m; induction l as [|x l IH]; intros [|n] [|m] H; simpl; auto;
    try congruence.
Qed.

Lemma update_nth_snoc {A : Type} (l : list A) (x a : A) :
  update_nth (List.length l) a (l ++ [x]) = l ++ [a].
Proof. induction l as [|y l IH]; simpl; congruence. Qed.

Lemma nth_error_pending_snoc (l : list PromiseState) (q : nat) :
  nth_error (l ++ [Pending]) q = Some Pending ->
  nth_error l q = Some Pending \/ q = List.length l.
Proof.
  intros H. destruct (Nat.lt_ge_cases q (List.length l)) as [Hlt|Hge].
  - left. now rewrite nth_error_app1 in H.
  - right. assert (q < List.length (l ++ [Pending])).
    { apply nth_error_Some. congruence. }
    rewrite length_app in *. simpl in *. lia.
Qed.

Lemma is_suspended_false c s :
  is_suspended c s = false <-> ~ In c (map su_caller (suspended s)).
Proof.
  unfold is_suspended. induction (suspended s) as [|su l IH]; simpl.
  - tauto.
  - destruct (Nat.eqb_spec (su_caller su) c) as [E|N]; simpl.
    + split; [discriminate | intros H; elim H; auto].
    + rewrite IH. tauto.
Qed.

Lemma take_caller_split c l su rest :
  take_caller c l = Some (su, rest) ->
  exists pre post,
    l = pre ++ su :: post /\ rest = pre ++ post /\ su_caller su = c.
Proof.
  revert su rest; induction l as [|x l IH]; simpl; intros su rest H; [discriminate|].
  destruct (Nat.eqb_spec (su_caller x) c) as [E|N].
  - injection H as <- <-. exists [], l. auto.
  - destruct (take_caller c l) as [[y r]|]; [|discriminate].
    injection H as <- <-. destruct (IH y r eq_refl) as (pre & post & -> & -> & Hc).
    exists (x :: pre), post. auto.
Qed.

Lemma take_caller_fresh c pre x post :
  ~ In c (map su_caller pre) -> su_caller x = c ->
  take_caller c (pre ++ x :: post) = Some (x, pre ++ post).
Proof.
  intros Hn Hx. induction pre as [|y pre IH]; simpl in *.
  - rewrite Hx, Nat.eqb_refl. reflexivity.
  - destruct (Nat.eqb_spec (su_caller y) c) as [E|N]; [elim Hn; auto|].
    rewrite IH by tauto. reflexivity.
Qed.

Lemma take_caller_in su l :
  In su l -> NoDup (map su_caller l) ->
  exists rest, take_caller (su_caller su) l = Some (su, rest).
Proof.
  induction l as [|x l IH]; simpl; intros Hin Hnd; [contradiction|].
  inversion Hnd as [|? ? Hx Hnd']; subst.
  destruct Hin as [->|Hin].
  - rewrite Nat.eqb_refl. eauto.
  - destruct (Nat.eqb_spec (su_caller x) (su_caller su)) as [E|N].
    + elim Hx. rewrite E. now apply in_map.
    + destruct (IH Hin Hnd') as [rest ->]. eauto.
Qed.

Lemma filter_single_removed {A : Type} (f : A -> bool) (pre post : list A) (x y : A) :
  f x = true -> filter f (pre ++ x :: post) = [y] -> filter f (pre ++ post) = [].
Proof.
  intros Hx. rewrite !filter_app. simpl. rewrite Hx.
  destruct (filter f pre) as [|a [|b l]]; simpl; intros H.
  - injection H as _ H. now rewrite H.
  - discriminate.
  - discriminate.
Qed.

Lemma filter_other_removed {A : Type} (f : A -> bool) (pre post : list A) (x : A) :
  f x = false -> filter f (pre ++ x :: post) = filter f (pre ++ post).
Proof. intros Hx. rewrite !filter_app. simpl. now rewrite Hx. Qed.

(** ** The policy store: the steps *)

Lemma enter_refresh_attach c s p :
  handle s = Some p ->
  enter_refresh c s =
  Some (mkStore (world s) (inflight s) (suspended s ++ [mkSuspended c p false])
          (returned s)).
Proof. intros H. unfold enter_refresh. now rewrite H. Qed.

Lemma enter_refresh_start c s :
  handle s = None ->
  enter_refresh c s =
  Some (mkStore
          (set_client
             (with_policyRefreshPromise (Some (List.length (promises (world s)))))
             (add_promise Pending (snd (fetchPolicy_start offline (world s)))))
          (inflight s ++
           [mkInflight (List.length (promises (world s)))
              (cachedPolicy (client (world s))) (policyRequest (client (world s)))])
          (suspended s ++ [mkSuspended c (List.length (promises (world s))) true])
          (returned s)).
Proof. intros H. unfold enter_refresh. rewrite H. reflexivity. Qed.

Ltac store_fields :=
  cbn [world inflight suspended returned handle owners client now netlog console timers
       promises apiKey config cachedPolicy policyLastFetchMs _policyRefreshPromise
       set_client add_promise at_time settle_promise with_policyRefreshPromise
       fetchPolicy_start snd fst] in *.

Lemma initial_inv key cfg t : store_inv (initial key cfg t).
Proof.
  constructor; unfold handle, owners; cbn; auto; try contradiction.
  - intros [|q]; discriminate.
  - constructor.
Qed.

Lemma at_time_inv s t :
  store_inv s ->
  store_inv (mkStore (at_time t (world s)) (inflight s) (suspended s) (returned s)).
Proof. intros [I1 I2 I3 I4 I5 I6 I7]. constructor; assumption. Qed.

Lemma enter_refresh_inv c s s' :
  store_inv s -> is_suspended c s = false -> enter_refresh c s = Some s' ->
  store_inv s'.
Proof.
  intros [I1 I2 I3 I4 I5 I6 I7] Hc He.
  apply is_suspended_false in Hc.
  assert (Hdup : forall p o, NoDup (map su_caller (suspended s ++ [mkSuspended c p o]))).
  { intros p o. rewrite map_app. simpl.
    apply NoDup_app; [exact I7 | repeat constructor; simpl; tauto |].
    intros x Hx [<-|[]]. exact (Hc Hx). }
  destruct (handle s) as [p|] eqn:Hh.
  - rewrite (enter_refresh_attach _ _ _ Hh) in He. injection He as <-.
    assert (Hp : p < List.length (promises (world s))).
    { apply nth_error_Some. destruct I1 as [[_ [v E]]|[_ E]]; congruence. }
    constructor; unfold handle, owners in *; store_fields; rewrite ?Hh.
    + exact I1.
    + exact I2.
    + rewrite filter_app. simpl. now rewrite app_nil_r.
    + intros su [H|[<-|[]]]%in_app_or; auto.
    + exact I5.
    + exact I6.
    + apply Hdup.
  - rewrite (enter_refresh_start _ _ Hh) in He. injection He as <-.
    constructor; unfold handle, owners in *; store_fields.
    + right. rewrite I1. split; [reflexivity | apply nth_error_snoc].
    + intros q Hq. apply nth_error_pending_snoc in Hq. destruct Hq as [Hq| ->].
      * apply I2 in Hq. congruence.
      * reflexivity.
    + exists c. rewrite filter_app, I3. reflexivity.
    + intros su [H|[<-|[]]]%in_app_or; rewrite length_app; simpl.
      * specialize (I4 su H). lia.
      * lia.
    + rewrite !length_app. simpl. lia.
    + intros rt p H E. specialize (I6 rt p H E).
      rewrite nth_error_app1; [exact I6 | apply nth_error_Some; congruence].
    + apply Hdup.
Qed.

Lemma settle_inv p r s s' :
  store_inv s -> step s (Settle p r) = Some s' -> store_inv s'.
Proof.
  intros [I1 I2 I3 I4 I5 I6 I7] He. cbn [step] in He.
  destruct (take_inflight p (inflight s)) as [[fl rest]|] eqn:Ht; [|discriminate].
  destruct (nth_error (promises (world s)) p) as [[|v0]|] eqn:Hp; try discriminate.
  assert (Hh := I2 p Hp). rewrite Hh in I1, I3.
  destruct I1 as [[_ [v E]]|[Hi _]]; [congruence|].
  rewrite Hi in Ht. cbn in Ht. rewrite Nat.eqb_refl in Ht. injection Ht as <- <-.
  cbn [if_default if_request] in He.
  destruct (resume_settles (cachedPolicy (client (world s)))
              (policyRequest (client (world s))) (answering r) (world s))
    as (v & w1 & Hs & Hlog & Hpr & _ & _ & Hhd & _).
  rewrite Hs in He. injection He as <-.
  assert (Hlt : p < List.length (promises (world s))).
  { apply nth_error_Some. congruence. }
  constructor; unfold handle, owners in *; store_fields; rewrite ?Hhd, ?Hh, ?Hpr, ?Hlog.
  - left. split; [reflexivity|]. exists v. now apply nth_error_update_nth_eq.
  - intros q Hq. destruct (Nat.eq_dec q p) as [->|N].
    + rewrite nth_error_update_nth_eq in Hq by exact Hlt. discriminate.
    + rewrite nth_error_update_nth_neq in Hq by exact N.
      apply I2 in Hq. congruence.
  - exact I3.
  - intros su H. rewrite update_nth_length. auto.
  - rewrite update_nth_length. exact I5.
  - intros rt q H E. specialize (I6 rt q H E).
    rewrite nth_error_update_nth_neq; [exact I6 | congruence].
  - exact I7.
Qed.

Lemma resume_inv c s s' :
  store_inv s -> step s (Resume c) = Some s' -> store_inv s'.
Proof.
  intros [I1 I2 I3 I4 I5 I6 I7] He. cbn [step] in He.
  destruct (take_caller c (suspended s)) as [[su rest]|] eqn:Ht; [|discriminate].
  destruct (nth_error (promises (world s)) (su_promise su)) as [[|v]|] eqn:Hp;
    try discriminate.
  injection He as <-.
  destruct (take_caller_split _ _ _ _ Ht) as (pre & post & Hl & -> & Hc).
  assert (Hdup : NoDup (map su_caller (pre ++ post))).
  { rewrite Hl, map_app in I7. simpl in I7. apply NoDup_remove_1 in I7.
    now rewrite map_app. }
  assert (Hsub : forall x, In x (pre ++ post) -> In x (suspended s)).
  { intros x Hx. rewrite Hl. apply in_app_or in Hx. apply in_or_app. simpl. tauto. }
  unfold owners in I3. rewrite Hl in I3.
  destruct (su_owner su) eqn:Ho.
  - (* the owner runs its [finally] *)
    assert (Hh : handle s = Some (su_promise su)).
    { destruct (handle s) as [p|].
      - destruct I3 as [c0 I3]. assert (Hin : In su [mkSuspended c0 p true]).
        { rewrite <- I3. apply filter_In. split; [apply in_or_app; simpl; auto | exact Ho]. }
        destruct Hin as [<-|[]]. reflexivity.
      - assert (Hin : In su []).
        { rewrite <- I3. apply filter_In. split; [apply in_or_app; simpl; auto | exact Ho]. }
        destruct Hin. }
    rewrite Hh in I1, I3. destruct I3 as [c0 I3].
    destruct I1 as [[Hi _]|[_ E]]; [|congruence].
    constructor; unfold handle, owners in *; store_fields.
    + exact Hi.
    + intros q Hq. assert (Hq' := I2 q Hq). congruence.
    + exact (filter_single_removed _ _ _ _ _ Ho I3).
    + intros x Hx. apply I4, Hsub, Hx.
    + exact I5.
    + intros rt q [H|[<-|[]]]%in_app_or E; [now apply I6|].
      cbn in E. injection E as <-. exact Hp.
    + exact Hdup.
  - (* a caller that had returned the promise it found *)
    rewrite (filter_other_removed _ _ _ _ Ho) in I3.
    constructor; unfold handle, owners in *; store_fields.
    + exact I1.
    + exact I2.
    + exact I3.
    + intros x Hx. apply I4, Hsub, Hx.
    + exact I5.
    + intros rt q [H|[<-|[]]]%in_app_or E; [now apply I6|].
      cbn in E. injection E as <-. exact Hp.
    + exact Hdup.
Qed.

Lemma step_inv s e s' : store_inv s -> step s e = Some s' -> store_inv s'.
Proof.
  intros Hi He. destruct e as [c|c t|p r|c].
  - cbn [step] in He. destruct (is_suspended c s) eqn:Hc; [discriminate|].
    exact (enter_refresh_inv _ _ _ Hi Hc He).
  - cbn [step] in He. destruct (is_suspended c s) eqn:Hc; [discriminate|].
    destruct (stale (client (world s)) t).
    + exact (enter_refresh_inv c _ _ (at_time_inv s t Hi) Hc He).
    + injection He as <-. destruct (at_time_inv s t Hi) as [I1 I2 I3 I4 I5 I6 I7].
      constructor; try assumption.
      intros rt q [H|[<-|[]]]%in_app_or E; [now apply I6 | discriminate].
  - exact (settle_inv _ _ _ _ Hi He).
  - exact (resume_inv _ _ _ Hi He).
Qed.

Lemma reachable_inv s : reachable s -> store_inv s.
Proof.
  induction 1 as [key cfg t | s e s' _ IH He].
  - apply initial_inv.
  - exact (step_inv _ _ _ IH He).
Qed.

(** ** The policy store: several callers on one refresh *)

Lemma run_app s es1 es2 :
  run s (es1 ++ es2) =
  match run s es1 with
  | Some s' => run s' es2
  | None => None
  end.
Proof.
  revert s; induction es1 as [|e es1 IH]; intros s; simpl; [reflexivity|].
  destruct (step s e); [apply IH | reflexivity].
Qed.

Lemma step_access_stale c t s :
  is_suspended c s = false -> stale (client (world s)) t = true ->
  step s (Access c t) =
  enter_refresh c (mkStore (at_time t (world s)) (inflight s) (suspended s) (returned s)).
Proof. intros Hc Hs. cbn [step]. now rewrite Hc, Hs. Qed.

Lemma step_settle p r s fl v w1 :
  inflight s = [fl] -> if_promise fl = p ->
  nth_error (promises (world s)) p = Some Pending ->
  safeApiCall "refreshPolicy" (if_default fl) (fetchPolicy_resume (if_request fl))
    (answering r) (world s) = (Normal v, w1) ->
  step s (Settle p r) =
  Some (mkStore (settle_promise p (Fulfilled v) w1) [] (suspended s) (returned s)).
Proof.
  intros Hi Hf Hp Hs. cbn [step]. rewrite Hi. cbn [take_inflight].
  rewrite Hf, Nat.eqb_refl, Hp, Hs. reflexivity.
Qed.

Lemma step_resume c s su rest v :
  take_caller c (suspended s) = Some (su, rest) ->
  nth_error (promises (world s)) (su_promise su) = Some (Fulfilled v) ->
  step s (Resume c) =
  Some (mkStore
          (if su_owner su
           then set_client (with_policyRefreshPromise None) (world s)
           else world s)
          (inflight s) rest
          (returned s ++ [mkReturned c (Some (su_promise su)) v])).
Proof. intros Ht Hp. cbn [step]. now rewrite Ht, Hp. Qed.

(** Callers that find the promise in the client join it: nothing is sent,
    nothing is created. *)
Lemma attach_many (cs : list (Caller * number)) : forall s p,
  handle s = Some p ->
  NoDup (map fst cs) ->
  (forall c, In c (map fst cs) -> is_suspended c s = false) ->
  Forall (fun ct => stale (client (world s)) (snd ct) = true) cs ->
  exists s',
    run s (map (fun ct => Access (fst ct) (snd ct)) cs) = Some s' /\
    client (world s') = client (world s) /\
    netlog (world s') = netlog (world s) /\
    promises (world s') = promises (world s) /\
    inflight s' = inflight s /\
    suspended s' = suspended s ++ map (fun ct => mkSuspended (fst ct) p false) cs /\
    returned s' = returned s.
Proof.
  induction cs as [|[c t] cs IH]; intros s p Hh Hnd Hfresh Hst.
  - exists s. cbn. rewrite app_nil_r. repeat split; reflexivity.
  - inversion Hnd as [|? ? Hnotin Hnd']; subst. inversion Hst as [|? ? Hst1 Hst']; subst.
    cbn [fst snd] in *.
    cbn [map run]. rewrite step_access_stale by (auto; apply Hfresh; cbn; auto).
    rewrite (enter_refresh_attach c _ p) by exact Hh. cbn [world inflight suspended returned].
    set (s1 := mkStore (at_time t (world s)) (inflight s)
                 (suspended s ++ [mkSuspended c p false]) (returned s)).
    destruct (IH s1 p) as (s' & Hrun & Hc & Hl & Hp & Hi & Hs & Hr); auto.
    + intros c' Hin. apply is_suspended_false. subst s1. cbn [suspended].
      rewrite map_app. cbn. intros [H|[<-|[]]]%in_app_or.
      * specialize (Hfresh c' (or_intror Hin)). apply is_suspended_false in Hfresh.
        exact (Hfresh H).
      * exact (Hnotin Hin).
    + exists s'. subst s1. cbn in *. rewrite <- app_assoc in Hs. cbn in Hs.
      repeat split; assumption.
Qed.

(** Callers that joined a promise get what it holds when they resume. *)
Lemma resume_many (cs : list Caller) : forall s p v pre,
  nth_error (promises (world s)) p = Some (Fulfilled v) ->
  suspended s = pre ++ map (fun c => mkSuspended c p false) cs ->
  (forall c, In c cs -> ~ In c (map su_caller pre)) ->
  exists s',
    run s (map Resume cs) = Some s' /\
    world s' = world s /\
    inflight s' = inflight s /\
    suspended s' = pre /\
    returned s' = returned s ++ map (fun c => mkReturned c (Some p) v) cs.
Proof.
  induction cs as [|c cs IH]; intros s p v pre Hp Hs Hfresh.
  - exists s. cbn in *. rewrite app_nil_r in *. repeat split; auto.
  - cbn [map run]. cbn [map] in Hs.
    rewrite (step_resume c s (mkSuspended c p false)
               (pre ++ map (fun c => mkSuspended c p false) cs) v).
    + cbn [su_owner su_promise].
      set (s1 := mkStore (world s) (inflight s)
                   (pre ++ map (fun c => mkSuspended c p false) cs)
                   (returned s ++ [mkReturned c (Some p) v])).
      destruct (IH s1 p v pre) as (s' & Hrun & Hw & Hi & Hsu & Hr); auto.
      * intros c' Hin. apply Hfresh. cbn. auto.
      * exists s'. subst s1. cbn in *. rewrite <- app_assoc in Hr.
        repeat split; assumption.
    + rewrite Hs. apply take_caller_fresh; [apply Hfresh; cbn; auto | reflexivity].
    + exact Hp.
Qed.

(** From a store with no promise in the client, the first stale access
    sends the policy request, the others join its promise; whatever the
    answer, all of them return the policy that is cached in the end, and the
    client is left without promise. *)
Lemma one_refresh_serves_all c1 t1 (cs : list (Caller * number)) r s :
  store_inv s -> handle s = None ->
  NoDup (c1 :: map fst cs) ->
  (forall c, In c (c1 :: map fst cs) -> is_suspended c s = false) ->
  Forall (fun ct => stale (client (world s)) (snd ct) = true) ((c1, t1) :: cs) ->
  exists s',
    run s (map (fun ct => Access (fst ct) (snd ct)) ((c1, t1) :: cs)
           ++ [Settle (List.length (promises (world s))) r]
           ++ map Resume (c1 :: map fst cs)) = Some s' /\
    netlog (world s') = netlog (world s) ++ [policyRequest (client (world s))] /\
    returned s' =
      returned s ++
      map (fun c => mkReturned c (Some (List.length (promises (world s))))
                      (cachedPolicy (client (world s'))))
          (c1 :: map fst cs) /\
    handle s' = None /\ inflight s' = [].
Proof.
  intros Hinv Hh Hnd Hfresh Hst.
  set (p := List.length (promises (world s))).
  inversion Hnd as [|? ? Hnotin Hnd']; subst.
  inversion Hst as [|? ? Hst1 Hst']; subst. cbn [fst snd] in Hst1.
  assert (Hi0 : inflight s = []).
  { destruct Hinv as [I1 _ _ _ _ _ _]. now rewrite Hh in I1. }
  (* the first access starts the refresh *)
  cbn [map fst snd app run].
  rewrite step_access_stale by (auto; apply Hfresh; cbn; auto).
  rewrite enter_refresh_start by exact Hh.
  cbn [world inflight suspended returned at_time promises client]. rewrite Hi0. cbn [app].
  fold p.
  set (s1 := mkStore _ _ _ _).
  (* the others join *)
  rewrite run_app.
  destruct (attach_many cs s1 p) as (s2 & Hrun2 & Hc2 & Hl2 & Hp2 & Hi2 & Hs2 & Hr2).
  { reflexivity. }
  { exact Hnd'. }
  { intros c Hin. apply is_suspended_false. subst s1. cbn [suspended].
    rewrite map_app. cbn. intros [H|[<-|[]]]%in_app_or.
    - specialize (Hfresh c (or_intror Hin)). apply is_suspended_false in Hfresh.
      exact (Hfresh H).
    - exact (Hnotin Hin). }
  { subst s1. cbn. exact Hst'. }
  rewrite Hrun2. subst s1. store_fields.
  (* the request is answered *)
  cbn [app run].
  destruct (resume_settles (cachedPolicy (client (world s)))
              (policyRequest (client (world s))) (answering r) (world s2))
    as (v & w3 & Hset & Hl3 & Hp3 & _ & _ & Hh3 & Hv3 & _).
  rewrite (step_settle p r s2 _ v w3 Hi2 eq_refl).
  2:{ rewrite Hp2. apply nth_error_snoc. }
  2:{ exact Hset. }
  rewrite fetchPolicy_start_sends in *. store_fields.
  assert (Hv : v = cachedPolicy (client w3)).
  { apply Hv3. now rewrite Hc2. }
  (* the first caller resumes and clears the promise *)
  rewrite <- app_assoc in Hs2. cbn [app] in Hs2.
  assert (Hp4 : update_nth p (Fulfilled v) (promises w3) =
                promises (world s) ++ [Fulfilled v]).
  { rewrite Hp3, Hp2. apply update_nth_snoc. }
  rewrite (step_resume c1 _ (mkSuspended c1 p true)
             (suspended s ++ map (fun ct => mkSuspended (fst ct) p false) cs) v).
  2:{ cbn [suspended]. rewrite Hs2. apply take_caller_fresh; [|reflexivity].
      apply is_suspended_false, Hfresh. cbn. auto. }
  2:{ cbn [world su_promise settle_promise promises]. rewrite Hp4. apply nth_error_snoc. }
  cbn [su_owner su_promise world inflight returned].
  set (s4 := mkStore _ _ _ _).
  destruct (resume_many (map fst cs) s4 p v (suspended s))
    as (s5 & Hrun5 & Hw5 & Hi5 & Hs5 & Hr5).
  { subst s4. store_fields. rewrite Hp4. apply nth_error_snoc. }
  { subst s4. cbn [suspended]. now rewrite map_map. }
  { intros c Hin. apply is_suspended_false, Hfresh. cbn. auto. }
  exists s5. rewrite Hrun5. unfold handle. rewrite Hw5, Hr5. subst s4. store_fields.
  rewrite Hr2, Hl3, Hl2, <- Hv, <- app_assoc. cbn [app].
  repeat split; auto.
Qed.

(** Whatever answers the request of the callback in flight, the promise
    settles, and the call that created it then resumes and leaves the client
    without promise. *)
Lemma settle_then_owner_clears s fl r :
  store_inv s -> inflight s = [fl] ->
  exists c s1 s2,
    step s (Settle (if_promise fl) r) = Some s1 /\
    step s1 (Resume c) = Some s2 /\
    handle s2 = None /\ inflight s2 = [].
Proof.
  intros [I1 I2 I3 I4 I5 I6 I7] Hi.
  destruct (handle s) as [p|] eqn:Hh; [|congruence].
  destruct I1 as [[Hn _]|[Hfl Hp]]; [congruence|].
  assert (Ef : fl = mkInflight p (cachedPolicy (client (world s)))
                       (policyRequest (client (world s)))) by congruence.
  subst fl. cbn [if_promise].
  destruct (resume_settles (cachedPolicy (client (world s)))
              (policyRequest (client (world s))) (answering r) (world s))
    as (v & w1 & Hs & _ & Hpr & _).
  destruct I3 as [c I3].
  assert (Hin : In (mkSuspended c p true) (suspended s)).
  { apply (proj1 (filter_In su_owner _ (suspended s))). fold (owners s).
    rewrite I3. now left. }
  destruct (take_caller_in _ _ Hin I7) as [rest Ht]. cbn [su_caller] in Ht.
  exists c. do 2 eexists. split; [|split].
  - apply (step_settle p r s _ v w1 Hi eq_refl Hp Hs).
  - apply (step_resume c _ (mkSuspended c p true) rest v); [exact Ht|].
    cbn [world settle_promise promises su_promise]. rewrite Hpr.
    apply nth_error_update_nth_eq, nth_error_Some. congruence.
  - split; reflexivity.
Qed.

(** ** The run of one call and the steps of the store agree *)

Lemma resume_env d req env1 env2 w :
  net env1 req = net env2 req ->
  safeApiCall "refreshPolicy" d (fetchPolicy_resume req) env1 w =
  safeApiCall "refreshPolicy" d (fetchPolicy_resume req) env2 w.
Proof.
  intros H. unfold_m. rewrite H. destruct (net env2 req) as [o t]; cbn [outcome arrival].
  destruct o as [ | | res];
    [ | | destruct (ok res); cbn [negb]; [destruct (payload res) as [j| | ] | ] ];
    reflexivity.
Qed.

(** The callback neither reads nor writes the promise kept in the client or
    the promise table. *)
Lemma resume_frame d req env w v w1 h ps :
  safeApiCall "refreshPolicy" d (fetchPolicy_resume req) env w = (Normal v, w1) ->
  safeApiCall "refreshPolicy" d (fetchPolicy_resume req) env
    (mkWorld (with_policyRefreshPromise h (client w)) (now w) (netlog w) (console w)
       (timers w) ps) =
  (Normal v,
   mkWorld (with_policyRefreshPromise h (client w1)) (now w1) (netlog w1) (console w1)
     (timers w1) ps).
Proof.
  unfold_m. destruct (net env req) as [o t]; cbn [outcome arrival].
  destruct o as [ | | res];
    [ | | destruct (ok res); cbn [negb];
          [destruct (payload res) as [j| | ]; [destruct (policy_of_json j)| | ]; cbn | ] ];
    intros H; injection H as <- <-; reflexivity.
Qed.

(** [refreshPolicy] run by one call alone is the three steps of the store:
    enter, settle with the answer of the network, resume. *)
Lemma solo_refresh_is_a_run env w c :
  _policyRefreshPromise (client w) = None ->
  exists v w',
    refreshPolicy env w = (Normal v, w') /\
    run (mkStore w [] [] [])
      [Refresh c;
       Settle (List.length (promises w)) (net env (policyRequest (client w)));
       Resume c] =
    Some (mkStore w' [] [] [mkReturned c (Some (List.length (promises w))) v]).
Proof.
  intros Hh.
  destruct (resume_settles (cachedPolicy (client w)) (policyRequest (client w)) env
              (snd (fetchPolicy_start env w)))
    as (v & w1 & Hs & _ & Hp & _).
  exists v. eexists. split.
  { apply (refreshPolicy_owner env w v w1 Hh). rewrite safeApiCall_fetchPolicy. exact Hs. }
  cbn [run].
  assert (H1 : step (mkStore w [] [] []) (Refresh c) =
               enter_refresh c (mkStore w [] [] [])) by reflexivity.
  rewrite H1, enter_refresh_start by exact Hh.
  cbn [world inflight suspended returned app].
  rewrite fetchPolicy_start_sends in *. cbn [snd promises] in *.
  set (p := List.length (promises w)).
  rewrite (step_settle p _ _
             (mkInflight p (cachedPolicy (client w)) (policyRequest (client w))) v
             (mkWorld (with_policyRefreshPromise (Some p) (client w1)) (now w1)
                (netlog w1) (console w1) (timers w1) (promises w ++ [Pending]))).
  2:{ reflexivity. }
  2:{ reflexivity. }
  2:{ cbn. apply nth_error_snoc. }
  2:{ cbn [world if_default if_request]. unfold set_client, add_promise.
      cbn [client now netlog console timers promises].
      rewrite (resume_env _ _ _ env) by reflexivity.
      apply (resume_frame _ _ _ _ _ _ _ _ Hs). }
  rewrite (step_resume c _ (mkSuspended c p true) [] v).
  2:{ cbn. now rewrite Nat.eqb_refl. }
  2:{ cbn. subst p. rewrite update_nth_snoc. apply nth_error_snoc. }
  subst p. unfold settle_promise, set_client. cbn [client now netlog console timers promises].
  rewrite update_nth_snoc, Hp. reflexivity.
Qed.

(** C2: in every state the store can reach, at most one callback is in
    flight and at most one promise is pending, which is the one kept in the
    client; one policy request was sent per promise created; a caller that
    asks for a refresh while the client keeps a promise joins that promise
    and the world is untouched; callers that waited for one promise returned
    one policy.  From a state without promise, when N >= 1 callers find the
    policy stale, exactly one policy request is sent, all N return the same
    policy (the one cached in the end), and, whatever the answer to the
    request was, no promise is left in the client.  In general, whenever a
    callback is in flight, every answer to its request settles the promise,
    after which the call that created it resumes and clears it. *)
Theorem C2_single_flight_refresh s :
  reachable s ->
  (List.length (inflight s) <= 1 /\
   (forall fl, In fl (inflight s) -> handle s = Some (if_promise fl)) /\
   (forall p, nth_error (promises (world s)) p = Some Pending -> handle s = Some p) /\
   List.length (netlog (world s)) = List.length (promises (world s))) /\
  (forall p c,
     handle s = Some p -> is_suspended c s = false ->
     step s (Refresh c) =
     Some (mkStore (world s) (inflight s) (suspended s ++ [mkSuspended c p false])
             (returned s))) /\
  (forall r1 r2 p,
     In r1 (returned s) -> In r2 (returned s) ->
     rt_promise r1 = Some p -> rt_promise r2 = Some p ->
     rt_result r1 = rt_result r2) /\
  (forall (cs : list (Caller * number)) (r : Reply),
     handle s = None -> cs <> [] ->
     NoDup (map fst cs) ->
     (forall c, In c (map fst cs) -> is_suspended c s = false) ->
     Forall (fun ct => stale (client (world s)) (snd ct) = true) cs ->
     exists s',
       run s (map (fun ct => Access (fst ct) (snd ct)) cs
              ++ [Settle (List.length (promises (world s))) r]
              ++ map Resume (map fst cs)) = Some s' /\
       netlog (world s') = netlog (world s) ++ [policyRequest (client (world s))] /\
       returned s' =
         returned s ++
         map (fun c => mkReturned c (Some (List.length (promises (world s))))
                         (cachedPolicy (client (world s'))))
             (map fst cs) /\
       handle s' = None /\ inflight s' = []) /\
  (forall fl r,
     inflight s = [fl] ->
     exists c s1 s2,
       step s (Settle (if_promise fl) r) = Some s1 /\
       step s1 (Resume c) = Some s2 /\
       handle s2 = None /\ inflight s2 = []).
Proof.
  intros Hr. assert (Hinv := reachable_inv s Hr).
  assert (Hclear := fun fl r => settle_then_owner_clears s fl r Hinv).
  destruct Hinv as [I1 I2 I3 I4 I5 I6 I7].
  split; [split; [|split; [|split]] | split; [|split; [|split; [|exact Hclear]]]].
  - destruct (handle s); [destruct I1 as [[-> _]|[-> _]] | rewrite I1]; simpl; lia.
  - intros fl Hin. destruct (handle s) as [p|].
    + destruct I1 as [[Hi _]|[Hi _]]; rewrite Hi in Hin.
      * destruct Hin.
      * destruct Hin as [<-|[]]. reflexivity.
    + rewrite I1 in Hin. destruct Hin.
  - exact I2.
  - exact I5.
  - intros p c Hh Hc. cbn [step]. rewrite Hc. now apply enter_refresh_attach.
  - intros r1 r2 p H1 H2 E1 E2.
    assert (A1 := I6 r1 p H1 E1). assert (A2 := I6 r2 p H2 E2). congruence.
  - intros [|[c1 t1] cs] r Hh Hne Hnd Hfresh Hst; [congruence|].
    apply (one_refresh_serves_all c1 t1 cs r s); auto.
    constructor; assumption.
Qed.

(** ** The client before its first successful policy fetch *)

Lemma enter_refresh_keeps_policy c s s' :
  enter_refresh c s = Some s' ->
  cachedPolicy (client (world s')) = cachedPolicy (client (world s)) /\
  policyLastFetchMs (client (world s')) = policyLastFetchMs (client (world s)).
Proof.
  intros He. destruct (handle s) as [p|] eqn:Hh.
  - rewrite (enter_refresh_attach _ _ _ Hh) in He. injection He as <-. auto.
  - rewrite (enter_refresh_start _ _ Hh) in He. injection He as <-. auto.
Qed.

(** Only a policy request that succeeds changes the cached policy or its
    timestamp. *)
Lemma step_keeps_policy s e s' :
  no_success e -> step s e = Some s' ->
  cachedPolicy (client (world s')) = cachedPolicy (client (world s)) /\
  policyLastFetchMs (client (world s')) = policyLastFetchMs (client (world s)).
Proof.
  intros Hn He. destruct e as [c|c t|p r|c]; cbn [step no_success] in *.
  - destruct (is_suspended c s); [discriminate|].
    exact (enter_refresh_keeps_policy _ _ _ He).
  - destruct (is_suspended c s); [discriminate|].
    destruct (stale (client (world s)) t).
    + exact (enter_refresh_keeps_policy _ _ _ He).
    + injection He as <-. auto.
  - destruct (take_inflight p (inflight s)) as [[fl rest]|]; [|discriminate].
    destruct (nth_error (promises (world s)) p) as [[|v0]|]; try discriminate.
    destruct (resume_settles (if_default fl) (if_request fl) (answering r) (world s))
      as (v & w1 & Hs & _ & _ & _ & _ & _ & _ & Hf).
    rewrite Hs in He. injection He as <-. cbn [world settle_promise client].
    destruct (Hf Hn) as [[-> _]|[-> _]]; auto.
  - destruct (take_caller c (suspended s)) as [[su rest]|]; [|discriminate].
    destruct (nth_error (promises (world s)) (su_promise su)) as [[|v]|];
      try discriminate.
    injection He as <-. destruct (su_owner su); auto.
Qed.

Lemma unrefreshed_default s :
  unrefreshed s ->
  cachedPolicy (client (world s)) = DEFAULT_POLICY /\
  policyLastFetchMs (client (world s)) = n0.
Proof.
  induction 1 as [key cfg t | s e s' _ [IHp IHt] Hn He].
  - split; reflexivity.
  - destruct (step_keeps_policy _ _ _ Hn He) as [-> ->]. auto.
Qed.

(** C10: from the constructor on and as long as no policy request has
    succeeded, [cachedPolicy] is [DEFAULT_POLICY] and [policyLastFetchMs] is
    0.  A policy access on such a client, no refresh being under way, sends
    a policy request when [now - 0 > policyRefreshSeconds * 1000] and none
    otherwise; when the policy is not stale or the request fails, the access
    gives [DEFAULT_POLICY] and leaves the client as it is, a text check
    leaves [DEFAULT_POLICY] cached, and an image check that gets a 2xx
    answer applies [DEFAULT_POLICY] to it. *)
Theorem C10_default_policy_until_first_successful_fetch s :
  unrefreshed s ->
  (cachedPolicy (client (world s)) = DEFAULT_POLICY /\
   policyLastFetchMs (client (world s)) = n0) /\
  forall env w,
    handle s = None -> client w = client (world s) ->
    (num_gt (num_sub (now w) n0)
            (num_mul (policyRefreshSeconds (config (client w))) n1000) = true ->
     netlog (snd (_getPolicyMaybeRefresh env w)) =
     netlog w ++ [policyRequest (client w)]) /\
    (num_gt (num_sub (now w) n0)
            (num_mul (policyRefreshSeconds (config (client w))) n1000) = false ->
     _getPolicyMaybeRefresh env w = (Normal DEFAULT_POLICY, w)) /\
    (stale (client w) (now w) = false \/
     refresh_failed (outcome (net env (policyRequest (client w)))) = true ->
     fst (_getPolicyMaybeRefresh env w) = Normal DEFAULT_POLICY /\
     client (snd (_getPolicyMaybeRefresh env w)) = client w /\
     (forall text meta,
        cachedPolicy (client (snd (checkText text meta env w))) = DEFAULT_POLICY) /\
     (forall jpeg meta bytes res j,
        fst (toUint8Array jpeg env w) = Normal bytes ->
        outcome (net env (imageRequest (client w) bytes)) = Responded res ->
        ok res = true -> payload res = BodyJson j ->
        fst (checkImageJpeg jpeg meta env w) =
        Normal (_applyPolicyToImageResult (result_of_json j) DEFAULT_POLICY))).
Proof.
  intros Hu. destruct (unrefreshed_default s Hu) as [Hp0 Ht0].
  split; [split; assumption|]. intros env w Hh Hc.
  assert (Hp := Hp0). assert (Ht := Ht0).
  unfold handle in Hh. rewrite <- Hc in Hp, Ht, Hh.
  assert (Hst : stale (client w) (now w) =
                num_gt (num_sub (now w) n0)
                  (num_mul (policyRefreshSeconds (config (client w))) n1000)).
  { unfold stale. now rewrite Ht. }
  rewrite <- Hst. split; [|split].
  - intros Hs. rewrite (getPolicy_stale _ _ Hs).
    destruct (refreshPolicy_performs env w Hh) as (v & w' & -> & Hl & _). exact Hl.
  - intros Hs. rewrite (getPolicy_fresh _ _ Hs). now rewrite Hp.
  - intros Hor.
    assert (Hg : exists w1, _getPolicyMaybeRefresh env w = (Normal DEFAULT_POLICY, w1) /\
                            client w1 = client w).
    { destruct (stale (client w) (now w)) eqn:Hs.
      - destruct Hor as [Hor|Hf]; [discriminate|].
        rewrite (getPolicy_stale _ _ Hs).
        destruct (refreshPolicy_performs env w Hh) as (v & w2 & Hr & _ & _ & Hv & Hcl).
        specialize (Hcl Hf). rewrite Hcl, Hp in Hv. subst v.
        exists w2. auto.
      - rewrite (getPolicy_fresh _ _ Hs), Hp. eauto. }
    destruct Hg as (w1 & Hg & Hc1).
    split; [now rewrite Hg|]. split; [now rewrite Hg|]. split.
    + intros text meta. rewrite checkText_client, Hg. cbn [snd]. now rewrite Hc1.
    + intros jpeg meta bytes res j Hb Ho Hok Hpay.
      apply (checkImageJpeg_on_success jpeg meta env w DEFAULT_POLICY w1 bytes res j);
        auto.
      * now rewrite (toUint8Array_pure jpeg env w1 env w).
      * now rewrite Hc1.
Qed.

(** * Further properties of the SDK *)

(** ** What a check resolves to *)

Lemma refresh_failed_readable o : refresh_failed o = true <-> readable o = None.
Proof.
  destruct o as [ | | res]; cbn; try tauto.
  destruct (ok res); cbn; [|tauto].
  destruct (payload res); split; congruence.
Qed.

(** X4: [checkText] resolves to the flag of a 2xx answer that could be
    read ([true] when the flag is missing or [null]), except that with
    telemetry on a flag on which [String] throws gives [true]; and to [true]
    in every other case, a 2xx answer with an unreadable body included.  The
    policy and the clock have no part in it. *)
Theorem checkText_result_is_read_off_the_answer text meta env w :
  fst (checkText text meta env w) =
  Normal match readable (outcome (net env (textRequest (client w) text meta))) with
         | Some j =>
             let isTextPermitted := nullish (opt_get j "isTextPermitted") (JBool true) in
             if sendEvents (config (client w))
             then match ToString isTextPermitted with
                  | Normal _ => isTextPermitted
                  | Abrupt _ => JBool true
                  end
             else isTextPermitted
         | None => JBool true
         end.
Proof.
  destruct (getPolicy_normal env w) as (policy & w1 & Hg & Hk & Hc).
  rewrite <- (textRequest_ext _ _ text meta Hk Hc).
  cbv [checkText safeApiCall try_catch bind]. rewrite Hg.
  unfold_m. destruct (net env (textRequest (client w1) text meta)) as [o t].
  cbn [outcome arrival].
  destruct o as [ | | res]; cbn [readable]; try reflexivity.
  destruct (ok res); cbn [negb]; [|reflexivity].
  destruct (payload res) as [j| | ]; try reflexivity.
  cbv zeta. rewrite <- Hc.
  destruct (sendEvents (config (client w1))); [|reflexivity].
  destruct (ToString (nullish (opt_get j "isTextPermitted") (JBool true)));
    reflexivity.
Qed.

(** X5: [checkImageJpeg] resolves to the fallback [sdk_network_error] when
    the bytes cannot be had (unsupported input, unreadable Blob), when the
    request fails in transport, and when a 2xx answer has a body that cannot
    be read; to [cloud_unavailable] on a non-2xx answer; and otherwise to the
    answer put through the local enforcement with the policy in force. *)
Theorem checkImageJpeg_result_is_read_off_the_answer jpeg meta env w :
  fst (checkImageJpeg jpeg meta env w) =
  Normal
    match fst (_getPolicyMaybeRefresh env w), fst (toUint8Array jpeg env w) with
    | Normal policy, Normal bytes =>
        match outcome (net env (imageRequest (client w) bytes)) with
        | NetworkError | TimedOut => sdk_network_error
        | Responded res =>
            if ok res
            then match payload res with
                 | BodyJson j => _applyPolicyToImageResult (result_of_json j) policy
                 | BodyMalformed | BodyTimedOut => sdk_network_error
                 end
            else cloud_unavailable
        end
    | _, _ => sdk_network_error
    end.
Proof.
  destruct (getPolicy_normal env w) as (policy & w1 & Hg & Hk & Hc).
  cbv [checkImageJpeg safeApiCall try_catch bind]. rewrite Hg.
  cbv [gets]. cbn [client fst].
  rewrite (toUint8Array_pure jpeg env w1 env w).
  destruct (fst (toUint8Array jpeg env w)) as [bytes|e]; [|reflexivity].
  rewrite <- (imageRequest_ext _ _ bytes Hk Hc).
  unfold_m. destruct (net env (imageRequest (client w1) bytes)) as [o t].
  cbn [outcome arrival].
  destruct o as [ | | res]; try reflexivity.
  destruct (ok res); cbn [negb]; [|reflexivity].
  destruct (payload res) as [j| | ]; try reflexivity.
  destruct (sendEvents (config (client w1))); reflexivity.
Qed.

(** X6: a [Uint8Array], an [ArrayBuffer] and a readable [Blob] of the same
    bytes make [checkImageJpeg] do the same thing: the same result and the
    same world, in which the image request carries these bytes. *)
Theorem checkImageJpeg_normalises_the_bytes bytes meta env w :
  checkImageJpeg (IArrayBuffer bytes) meta env w
  = checkImageJpeg (IUint8Array bytes) meta env w /\
  checkImageJpeg (IBlob (Normal bytes)) meta env w
  = checkImageJpeg (IUint8Array bytes) meta env w /\
  In (imageRequest (client w) bytes)
     (netlog (snd (checkImageJpeg (IUint8Array bytes) meta env w))).
Proof.
  split; [reflexivity|]. split; [reflexivity|].
  destruct (getPolicy_normal env w) as (policy & w1 & Hg & Hk & Hc).
  rewrite <- (imageRequest_ext _ _ bytes Hk Hc).
  cbv [checkImageJpeg safeApiCall try_catch bind]. rewrite Hg.
  unfold_m. destruct (net env (imageRequest (client w1) bytes)) as [o t].
  cbn [outcome arrival].
  destruct o as [ | | res]; cbn; try (apply in_or_app; right; left; reflexivity).
  destruct (ok res); cbn; [|apply in_or_app; right; left; reflexivity].
  destruct (payload res) as [j| | ]; cbn;
    try (apply in_or_app; right; left; reflexivity).
  destruct (sendEvents (config (client w1))); cbn.
  - apply in_or_app. left. apply in_or_app. right. left. reflexivity.
  - apply in_or_app. right. left. reflexivity.
Qed.

(** ** What a call sends and what it leaves behind *)

Lemma resume_timers d req env w :
  timers (snd (safeApiCall "refreshPolicy" d (fetchPolicy_resume req) env w))
  = pred (timers w) /\
  now (snd (safeApiCall "refreshPolicy" d (fetchPolicy_resume req) env w))
  = arrival (net env req).
Proof.
  unfold_m. destruct (net env req) as [o t]; cbn [outcome arrival].
  destruct o as [ | | res];
    [ | | destruct (ok res); cbn [negb];
          [destruct (payload res) as [j| | ]; [destruct (policy_of_json j)| | ]; cbn | ] ];
    split; reflexivity.
Qed.

(** The requests of the policy step: one policy request when the policy is
    stale and no refresh is under way, none otherwise; and every timer it
    armed is disarmed. *)
Lemma getPolicy_world env w :
  netlog (snd (_getPolicyMaybeRefresh env w)) =
    netlog w ++
    (if stale (client w) (now w)
     then match _policyRefreshPromise (client w) with
          | None => [policyRequest (client w)]
          | Some _ => []
          end
     else []) /\
  timers (snd (_getPolicyMaybeRefresh env w)) = timers w.
Proof.
  destruct (stale (client w) (now w)) eqn:Hs.
  - rewrite (getPolicy_stale _ _ Hs).
    destruct (_policyRefreshPromise (client w)) as [p|] eqn:Hh.
    + rewrite (refreshPolicy_attached _ _ _ Hh). unfold awaitPromise.
      destruct (nth_error (promises w) p) as [[|v]|]; cbn; now rewrite app_nil_r.
    + destruct (resume_settles (cachedPolicy (client w)) (policyRequest (client w)) env
                  (snd (fetchPolicy_start env w)))
        as (v & w1 & Hr & Hlog & _).
      destruct (resume_timers (cachedPolicy (client w)) (policyRequest (client w)) env
                  (snd (fetchPolicy_start env w))) as [Ht _].
      rewrite Hr in Ht. rewrite <- safeApiCall_fetchPolicy in Hr.
      rewrite (refreshPolicy_owner _ _ _ _ Hh Hr). cbn in *. auto.
  - rewrite (getPolicy_fresh _ _ Hs). cbn. now rewrite app_nil_r.
Qed.

Lemma eventRequest_ext c1 c2 type dec meta extra t :
  apiKey c1 = apiKey c2 -> config c1 = config c2 ->
  eventRequest c1 type dec meta extra t = eventRequest c2 type dec meta extra t.
Proof. intros Hk Hc. unfold eventRequest, _headers. now rewrite Hk, Hc. Qed.

(** The event that [checkText] dispatches after the answer with body [j]. *)
Lemma checkText_world text meta env w :
  let req := textRequest (client w) text meta in
  let events :=
    match readable (outcome (net env req)) with
    | Some j =>
        if sendEvents (config (client w))
        then match ToString (nullish (opt_get j "isTextPermitted") (JBool true)) with
             | Normal shown =>
                 [eventRequest (client w) "text_moderated"
                    (JStr (if truthy (nullish (opt_get j "isTextPermitted") (JBool true))
                           then "ALLOW" else "BLOCK"))
                    meta
                    (JObj [("isTextPermitted", JStr shown)])
                    (arrival (net env req))]
             | Abrupt _ => []
             end
        else []
    | None => []
    end in
  netlog (snd (checkText text meta env w)) =
    netlog (snd (_getPolicyMaybeRefresh env w)) ++ req :: events /\
  timers (snd (checkText text meta env w)) = timers w + List.length events.
Proof.
  cbv zeta.
  destruct (getPolicy_world env w) as [_ Htm].
  destruct (getPolicy_normal env w) as (policy & w1 & Hg & Hk & Hc).
  rewrite Hg in Htm. cbn [snd] in Htm.
  rewrite <- (textRequest_ext _ _ text meta Hk Hc), <- Hc, <- Htm.
  cbv [checkText safeApiCall try_catch bind]. rewrite Hg.
  unfold_m. destruct (net env (textRequest (client w1) text meta)) as [o t].
  cbn [outcome arrival].
  destruct o as [ | | res]; cbn [readable]; try (cbn; split; [reflexivity | lia]).
  destruct (ok res); cbn [negb]; [|cbn; split; [reflexivity | lia]].
  destruct (payload res) as [j| | ]; try (cbn; split; [reflexivity | lia]).
  destruct (sendEvents (config (client w1))); cbn;
    [|split; [reflexivity | lia]].
  destruct (ToString (nullish (opt_get j "isTextPermitted") (JBool true)))
    as [shown|e]; cbn.
  - rewrite <- app_assoc. cbn.
    rewrite (eventRequest_ext (client w) (client w1)) by auto.
    split; [reflexivity | lia].
  - split; [reflexivity | lia].
Qed.

Lemma checkImageJpeg_world jpeg meta env w bytes :
  fst (toUint8Array jpeg env w) = Normal bytes ->
  let req := imageRequest (client w) bytes in
  let events :=
    match readable (outcome (net env req)) with
    | Some j =>
        if sendEvents (config (client w))
        then [eventRequest (client w) "image_moderated" (decision (result_of_json j)) meta
                (JObj [("nsfwScore",
                        match nsfwScore (result_of_json j) with
                        | None => JNull
                        | Some n => JStr (NumberToString n)
                        end)])
                (arrival (net env req))]
        else []
    | None => []
    end in
  netlog (snd (checkImageJpeg jpeg meta env w)) =
    netlog (snd (_getPolicyMaybeRefresh env w)) ++ req :: events /\
  timers (snd (checkImageJpeg jpeg meta env w)) = timers w + List.length events.
Proof.
  intros Hb. cbv zeta.
  destruct (getPolicy_world env w) as [_ Htm].
  destruct (getPolicy_normal env w) as (policy & w1 & Hg & Hk & Hc).
  rewrite Hg in Htm. cbn [snd] in Htm.
  rewrite <- (imageRequest_ext _ _ bytes Hk Hc), <- Hc, <- Htm.
  cbv [checkImageJpeg safeApiCall try_catch bind]. rewrite Hg.
  cbv [gets]. cbn [client fst snd].
  rewrite (toUint8Array_pure jpeg env w1 env w), Hb.
  unfold_m. destruct (net env (imageRequest (client w1) bytes)) as [o t].
  cbn [outcome arrival].
  destruct o as [ | | res]; cbn [readable]; try (cbn; split; [reflexivity | lia]).
  destruct (ok res); cbn [negb]; [|cbn; split; [reflexivity | lia]].
  destruct (payload res) as [j| | ]; try (cbn; split; [reflexivity | lia]).
  destruct (sendEvents (config (client w1))); cbn.
  - rewrite <- app_assoc. cbn.
    rewrite (eventRequest_ext (client w) (client w1)) by auto.
    split; [reflexivity | lia].
  - split; [reflexivity | lia].
Qed.

(** When the bytes cannot be had, nothing is sent and no timer is armed. *)
Lemma checkImageJpeg_world_no_bytes jpeg meta env w e :
  fst (toUint8Array jpeg env w) = Abrupt e ->
  netlog (snd (checkImageJpeg jpeg meta env w)) =
    netlog (snd (_getPolicyMaybeRefresh env w)) /\
  timers (snd (checkImageJpeg jpeg meta env w)) = timers w.
Proof.
  intros Hb. destruct (getPolicy_world env w) as [_ Htm].
  destruct (getPolicy_normal env w) as (policy & w1 & Hg & Hk & Hc).
  rewrite Hg in *. cbn [snd] in *. rewrite <- Htm.
  cbv [checkImageJpeg safeApiCall try_catch bind]. rewrite Hg.
  cbv [gets]. cbn [client fst snd].
  rewrite (toUint8Array_pure jpeg env w1 env w), Hb. split; reflexivity.
Qed.

(** [emitEvent] as dispatched by a check is the whole [emitEvent] up to its
    [await]: both have sent the same request. *)
Lemma emitEvent_sends type dec meta extra env w :
  netlog (snd (emitEvent type dec meta extra env w)) =
    netlog w ++ [eventRequest (client w) type dec meta extra (now w)] /\
  netlog (snd (emitEvent_awaited type dec meta extra env w)) =
    netlog (snd (emitEvent type dec meta extra env w)).
Proof.
  split; [reflexivity|].
  cbv [emitEvent_awaited]. unfold_m.
  destruct (outcome (net env (eventRequest (client w) type dec meta extra (now w))));
    reflexivity.
Qed.

(** X2: [emitEvent], awaited, never rejects, whatever the network does: it
    sends one request, to [/v1/events], disarms its timer, leaves the client
    as it is, and writes the error of a failed request to the console. *)
Theorem emitEvent_swallows_every_failure type dec meta extra env w :
  let req := eventRequest (client w) type dec meta extra (now w) in
  let w' := snd (emitEvent_awaited type dec meta extra env w) in
  fst (emitEvent_awaited type dec meta extra env w) = Normal tt /\
  netlog w' = netlog w ++ [req] /\
  timers w' = timers w /\
  client w' = client w /\
  console w' =
    console w ++
    match outcome (net env req) with
    | NetworkError => [("emitEvent", TypeError_failed_to_fetch)]
    | TimedOut => [("emitEvent", Error_timeout)]
    | Responded _ => []
    end.
Proof.
  cbv zeta. cbv [emitEvent_awaited]. unfold_m.
  destruct (outcome (net env (eventRequest (client w) type dec meta extra (now w))));
    cbn; rewrite ?app_nil_r; repeat split.
Qed.

(** X7: after the policy step, [checkText] sends the classification
    request once, and then a [text_moderated] event only if the answer was a
    2xx with a readable body, [sendEvents] is on and [String] returns on the
    flag; the event says ALLOW or BLOCK by the truthiness of the flag.  When
    [String] throws on the flag, no event is sent. *)
Theorem checkText_sends_one_request_and_maybe_an_event text meta env w :
  netlog (snd (checkText text meta env w)) =
    netlog (snd (_getPolicyMaybeRefresh env w))
    ++ textRequest (client w) text meta
    :: match readable (outcome (net env (textRequest (client w) text meta))) with
       | Some j =>
           if sendEvents (config (client w))
           then match ToString (nullish (opt_get j "isTextPermitted") (JBool true)) with
                | Normal shown =>
                    [eventRequest (client w) "text_moderated"
                       (JStr (if truthy (nullish (opt_get j "isTextPermitted")
                                           (JBool true))
                              then "ALLOW" else "BLOCK"))
                       meta
                       (JObj [("isTextPermitted", JStr shown)])
                       (arrival (net env (textRequest (client w) text meta)))]
                | Abrupt _ => []
                end
           else []
       | None => []
       end.
Proof. exact (proj1 (checkText_world text meta env w)). Qed.

(** X8: with the bytes at hand, [checkImageJpeg] sends the image request
    once, and then an [image_moderated] event only if the answer was a 2xx
    with a readable body and [sendEvents] is on; the event carries the
    decision and the score of the answer, as they were before the local
    enforcement. *)
Theorem checkImageJpeg_event_reports_the_remote_decision jpeg meta env w bytes :
  fst (toUint8Array jpeg env w) = Normal bytes ->
  netlog (snd (checkImageJpeg jpeg meta env w)) =
    netlog (snd (_getPolicyMaybeRefresh env w))
    ++ imageRequest (client w) bytes
    :: match readable (outcome (net env (imageRequest (client w) bytes))) with
       | Some j =>
           if sendEvents (config (client w))
           then [eventRequest (client w) "image_moderated"
                   (or_else (opt_get j "decision") (JStr "ALLOW")) meta
                   (JObj [("nsfwScore",
                           match number_or_null (opt_get j "nsfwScore") with
                           | None => JNull
                           | Some n => JStr (NumberToString n)
                           end)])
                   (arrival (net env (imageRequest (client w) bytes)))]
           else []
       | None => []
       end.
Proof. intros Hb. exact (proj1 (checkImageJpeg_world jpeg meta env w bytes Hb)). Qed.

Lemma authorized_requests c text meta bytes type dec extra t :
  authorized c (policyRequest c) = true /\
  authorized c (textRequest c text meta) = true /\
  authorized c (imageRequest c bytes) = true /\
  authorized c (eventRequest c type dec meta extra t) = true.
Proof. unfold authorized; cbn; rewrite String.eqb_refl; auto. Qed.

Lemma refreshPolicy_netlog env w :
  netlog (snd (refreshPolicy env w)) = netlog w \/
  netlog (snd (refreshPolicy env w)) = netlog w ++ [policyRequest (client w)].
Proof.
  destruct (_policyRefreshPromise (client w)) as [p|] eqn:Hh.
  - left. rewrite (refreshPolicy_attached _ _ _ Hh). unfold awaitPromise.
    destruct (nth_error (promises w) p) as [[|v]|]; reflexivity.
  - right. destruct (refreshPolicy_performs env w Hh) as (v & w' & -> & Hl & _).
    exact Hl.
Qed.

(** X9: every request that [refreshPolicy], [_getPolicyMaybeRefresh],
    [checkText], [checkImageJpeg] or [emitEvent] sends carries the header
    [Authorization: Bearer <apiKey>] with the key of the client. *)
Theorem every_request_is_authorized env w req :
  (In req (netlog (snd (refreshPolicy env w))) \/
   In req (netlog (snd (_getPolicyMaybeRefresh env w))) \/
   (exists text meta, In req (netlog (snd (checkText text meta env w)))) \/
   (exists jpeg meta, In req (netlog (snd (checkImageJpeg jpeg meta env w)))) \/
   (exists type dec meta extra,
       In req (netlog (snd (emitEvent_awaited type dec meta extra env w))))) ->
  In req (netlog w) \/ authorized (client w) req = true.
Proof.
  assert (Hpol : In req (netlog (snd (_getPolicyMaybeRefresh env w))) ->
                 In req (netlog w) \/ authorized (client w) req = true).
  { rewrite (proj1 (getPolicy_world env w)). intros [H|H]%in_app_or; [auto|].
    right. destruct (stale (client w) (now w)); [|destruct H].
    destruct (_policyRefreshPromise (client w)); [destruct H|].
    destruct H as [<-|[]].
    apply (authorized_requests (client w) "" JNull [] "" JNull JNull n0). }
  intros [H|[H|[(text & meta & H)|[(jpeg & meta & H)|(type & dec & meta & extra & H)]]]].
  - destruct (refreshPolicy_netlog env w) as [E|E]; rewrite E in H; [auto|].
    apply in_app_or in H. destruct H as [H|[<-|[]]]; [auto|]. right.
    apply (authorized_requests (client w) "" JNull [] "" JNull JNull n0).
  - auto.
  - rewrite (proj1 (checkText_world text meta env w)) in H.
    apply in_app_or in H. destruct H as [H|[<-|H]]; [auto | |].
    + right. apply (authorized_requests (client w) text meta [] "" JNull JNull n0).
    + right.
      destruct (readable _) as [j|]; [|destruct H].
      destruct (sendEvents _); [|destruct H].
      destruct (ToString _) as [shown|e]; [|destruct H]. destruct H as [<-|[]].
      apply (authorized_requests (client w) text meta []).
  - destruct (fst (toUint8Array jpeg env w)) as [bytes|e] eqn:Hb.
    + rewrite (proj1 (checkImageJpeg_world jpeg meta env w bytes Hb)) in H.
      apply in_app_or in H. destruct H as [H|[<-|H]]; [auto | |].
      * right. apply (authorized_requests (client w) "" meta bytes "" JNull JNull n0).
      * right.
        destruct (readable _) as [j|]; [|destruct H].
        destruct (sendEvents _); [|destruct H]. destruct H as [<-|[]].
        apply (authorized_requests (client w) "" meta bytes).
    + rewrite (proj1 (checkImageJpeg_world_no_bytes jpeg meta env w e Hb)) in H. auto.
  - rewrite (proj2 (emitEvent_sends type dec meta extra env w)),
      (proj1 (emitEvent_sends type dec meta extra env w)) in H.
    apply in_app_or in H. destruct H as [H|[<-|[]]]; [auto|]. right.
    apply (authorized_requests (client w) "" meta []).
Qed.

Lemma refreshPolicy_timers env w :
  timers (snd (refreshPolicy env w)) = timers w.
Proof.
  destruct (_policyRefreshPromise (client w)) as [p|] eqn:Hh.
  - rewrite (refreshPolicy_attached _ _ _ Hh). unfold awaitPromise.
    destruct (nth_error (promises w) p) as [[|v]|]; reflexivity.
  - destruct (resume_settles (cachedPolicy (client w)) (policyRequest (client w)) env
                (snd (fetchPolicy_start env w))) as (v & w1 & Hr & _).
    destruct (resume_timers (cachedPolicy (client w)) (policyRequest (client w)) env
                (snd (fetchPolicy_start env w))) as [Ht _].
    rewrite Hr in Ht. rewrite <- safeApiCall_fetchPolicy in Hr.
    rewrite (refreshPolicy_owner _ _ _ _ Hh Hr). exact Ht.
Qed.

(** X10: [refreshPolicy] and [_getPolicyMaybeRefresh] leave as many timers
    armed as they found, on every exit path; a check leaves one more exactly
    when it dispatched a telemetry event, whose timer [emitEvent] itself
    disarms.  [checkText] dispatches none when [String] throws on the flag. *)
Theorem every_armed_timer_is_disarmed env w :
  timers (snd (refreshPolicy env w)) = timers w /\
  timers (snd (_getPolicyMaybeRefresh env w)) = timers w /\
  (forall text meta,
     timers (snd (checkText text meta env w)) =
     timers w +
     match readable (outcome (net env (textRequest (client w) text meta))) with
     | Some j =>
         if sendEvents (config (client w))
         then match ToString (nullish (opt_get j "isTextPermitted") (JBool true)) with
              | Normal _ => 1
              | Abrupt _ => 0
              end
         else 0
     | None => 0
     end) /\
  (forall jpeg meta,
     timers (snd (checkImageJpeg jpeg meta env w)) =
     timers w +
     match fst (toUint8Array jpeg env w) with
     | Normal bytes =>
         match readable (outcome (net env (imageRequest (client w) bytes))) with
         | Some _ => if sendEvents (config (client w)) then 1 else 0
         | None => 0
         end
     | Abrupt _ => 0
     end) /\
  (forall type dec meta extra,
     timers (snd (emitEvent_awaited type dec meta extra env w)) = timers w).
Proof.
  split; [|split; [|split; [|split]]].
  - apply refreshPolicy_timers.
  - exact (proj2 (getPolicy_world env w)).
  - intros text meta. rewrite (proj2 (checkText_world text meta env w)).
    f_equal.
    destruct (readable _); [destruct (sendEvents _); [destruct (ToString _)|]|];
      reflexivity.
  - intros jpeg meta. destruct (fst (toUint8Array jpeg env w)) as [bytes|e] eqn:Hb.
    + rewrite (proj2 (checkImageJpeg_world jpeg meta env w bytes Hb)).
      f_equal. destruct (readable _); [destruct (sendEvents _)|]; reflexivity.
    + rewrite (proj2 (checkImageJpeg_world_no_bytes jpeg meta env w e Hb)). lia.
  - intros type dec meta extra. cbv [emitEvent_awaited]. unfold_m.
    destruct (outcome (net env _)); reflexivity.
Qed.

(** ** Numbers at the edges *)

Lemma SFcompare_refl (x : number) : x <> S754_nan -> SFcompare x x = Some Eq.
Proof.
  destruct x as [s|s| |s m e]; intros H; cbn; try congruence.
  - now destruct s.
  - rewrite Z.compare_refl, Pos.compare_cont_refl. now destruct s.
Qed.

Lemma SFleb_numbers (a b : number) :
  SFleb a b = true -> a <> S754_nan /\ b <> S754_nan.
Proof.
  unfold SFleb. destruct a, b; cbn; split; congruence.
Qed.

(** [Math.min(a, b)] is below both when neither is NaN, and NaN otherwise. *)
Lemma Math_min_below (a b : number) :
  a <> S754_nan -> b <> S754_nan ->
  num_le (Math_min a b) a = true /\ num_le (Math_min a b) b = true.
Proof.
  intros Ha Hb. unfold num_le, Math_min, SFleb.
  assert (Hab := SFcompare_antisym a b).
  destruct (SFcompare a b) as [[ | | ]|] eqn:E; cbn in Hab.
  - destruct a as [sa|sa| |sa ma ea], b as [sb|sb| |sb mb eb];
      try congruence; try (rewrite SFcompare_refl, ?E by congruence; auto);
      cbn in *; try discriminate; auto.
  - rewrite SFcompare_refl, E by assumption. auto.
  - rewrite Hab, SFcompare_refl by assumption. auto.
  - destruct a, b; cbn in E; congruence.
Qed.

Lemma never_above_infinity (x : number) : num_gt x (S754_infinity false) = false.
Proof. unfold num_gt, SFltb. now destruct x as [s|[|]| |s m e]. Qed.

(** X3: the telemetry request that [emitEvent] sends has the deadline
    [Math.min(timeoutMs, 5000)]: when [timeoutMs] is a number (not NaN), it
    is at most 5000 ms and at most [timeoutMs]. *)
Theorem event_deadline_is_at_most_5000 type dec meta extra env w :
  timeoutMs (config (client w)) <> S754_nan ->
  exists req,
    netlog (snd (emitEvent_awaited type dec meta extra env w)) = netlog w ++ [req] /\
    url req = String.append (apiBaseUrl (config (client w))) "/v1/events" /\
    num_le (deadlineMs req) n5000 = true /\
    num_le (deadlineMs req) (timeoutMs (config (client w))) = true.
Proof.
  intros Hn. exists (eventRequest (client w) type dec meta extra (now w)).
  split.
  - rewrite (proj2 (emitEvent_sends type dec meta extra env w)).
    apply (proj1 (emitEvent_sends type dec meta extra env w)).
  - split; [reflexivity|]. cbn [eventRequest deadlineMs].
    destruct (Math_min_below (timeoutMs (config (client w))) n5000 Hn) as [H1 H2];
      [discriminate | auto].
Qed.

(** X13: with [policyRefreshSeconds] NaN or [Infinity] the policy is never
    refreshed: whatever the clock and the timestamp of the last fetch, a
    policy access returns the cached policy and sends nothing. *)
Theorem policy_is_never_refreshed_with_nan_or_infinite_period env w :
  policyRefreshSeconds (config (client w)) = S754_nan \/
  policyRefreshSeconds (config (client w)) = S754_infinity false ->
  _getPolicyMaybeRefresh env w = (Normal (cachedPolicy (client w)), w).
Proof.
  intros H. apply getPolicy_fresh. unfold stale.
  destruct H as [-> | ->].
  - reflexivity.
  - change (num_mul (S754_infinity false) n1000) with (S754_infinity false).
    apply never_above_infinity.
Qed.

(** X11: the local enforcement never touches the score, and changes a
    result only when the toggle counts as true and the score is a number
    (not NaN) at or above a threshold that is a number (not NaN): then the
    decision becomes BLOCK and ["policy_nsfw"] is appended.  A NaN
    threshold, a missing score or a toggle that counts as false leave every
    result as the remote service gave it. *)
Theorem local_enforcement_needs_a_number_over_a_number result policy :
  nsfwScore (_applyPolicyToImageResult result policy) = nsfwScore result /\
  (_applyPolicyToImageResult result policy = result \/
   truthy (blockNsfwImages policy) = true /\
   exists score,
     nsfwScore result = Some score /\
     score <> S754_nan /\ nsfwThreshold policy <> S754_nan /\
     num_ge score (nsfwThreshold policy) = true /\
     _applyPolicyToImageResult result policy =
     {| decision := JStr "BLOCK";
        nsfwScore := Some score;
        reasons := reasons result ++ [JStr "policy_nsfw"] |}).
Proof.
  unfold _applyPolicyToImageResult.
  destruct (truthy (blockNsfwImages policy)); cbn [andb]; [|auto].
  destruct (nsfwScore result) as [score|] eqn:Hs; [|auto].
  destruct (num_ge score (nsfwThreshold policy)) eqn:Hge; [|auto].
  split; [cbn; auto|]. right. split; [reflexivity|]. exists score.
  destruct (SFleb_numbers _ _ Hge) as [Ht Hsc]. auto.
Qed.

(** X12: after a refresh that succeeded (a 2xx answer with a readable body
    from which a policy could be built), a policy access within
    [policyRefreshSeconds * 1000] ms of the answer is served that policy,
    and sends nothing. *)
Theorem refreshed_policy_is_then_served_from_cache env w j policy env2 t :
  _policyRefreshPromise (client w) = None ->
  readable (outcome (net env (policyRequest (client w)))) = Some j ->
  policy_of_json j = Normal policy ->
  num_le (num_sub t (arrival (net env (policyRequest (client w)))))
         (num_mul (policyRefreshSeconds (config (client w))) n1000) = true ->
  _getPolicyMaybeRefresh env2 (at_time t (snd (refreshPolicy env w))) =
  (Normal policy, at_time t (snd (refreshPolicy env w))).
Proof.
  intros Hh Hr Hj Hage.
  destruct (outcome (net env (policyRequest (client w)))) as [ | | res] eqn:Ho;
    try discriminate.
  cbn [readable] in Hr. destruct (ok res) eqn:Hok; [|discriminate].
  destruct (payload res) as [j'| | ] eqn:Hp; try discriminate.
  injection Hr as ->.
  destruct (refreshPolicy_success env w res j policy Hh Ho Hok Hp Hj)
    as (w' & Hrp & Hc & Hl & _).
  destruct (refreshPolicy_normal env w) as (v & w2 & Hrn & _ & Hcfg).
  rewrite Hrp in Hrn. injection Hrn as <- <-.
  rewrite Hrp. cbn [snd]. rewrite <- Hc.
  rewrite getPolicy_fresh; [reflexivity|].
  unfold stale. cbn [at_time client now].
  rewrite Hl, Hcfg. apply num_le_not_gt. exact Hage.
Qed.

(** ** The singleton *)

Lemma on_client_initialized {A : Type} (method : M A) env s :
  initialized s = true -> fst (on_client method env s) = fst (method env (heap s)).
Proof.
  intros Hi. unfold on_client, _requireClient. rewrite Hi.
  now destruct (method env (heap s)).
Qed.

(** X1: before [init], [Watchtower.checkText], [Watchtower.checkImageJpeg]
    and [Watchtower.refreshPolicy] throw the not-initialized error and touch
    nothing (no request, no log): this failure is not turned into a
    permissive result.  After [init] none of the three throws, whatever
    the network does, and [init] installs a client fresh from the
    constructor, whatever was cached before. *)
Theorem Watchtower_throws_only_before_init env s :
  (initialized s = false ->
   forall text jpeg meta,
     Watchtower_checkText text meta env s = (Abrupt Error_not_initialized, s) /\
     Watchtower_checkImageJpeg jpeg meta env s = (Abrupt Error_not_initialized, s) /\
     Watchtower_refreshPolicy env s = (Abrupt Error_not_initialized, s)) /\
  (initialized s = true ->
   forall text jpeg meta,
     (exists v, fst (Watchtower_checkText text meta env s) = Normal v) /\
     (exists v, fst (Watchtower_checkImageJpeg jpeg meta env s) = Normal v) /\
     (exists v, fst (Watchtower_refreshPolicy env s) = Normal v)) /\
  (forall key cfg,
     initialized (init key cfg s) = true /\
     client (heap (init key cfg s)) = constructor key cfg /\
     netlog (heap (init key cfg s)) = netlog (heap s)).
Proof.
  split; [|split].
  - intros Hi text jpeg meta.
    unfold Watchtower_checkText, Watchtower_checkImageJpeg, Watchtower_refreshPolicy,
      on_client, _requireClient.
    rewrite Hi. auto.
  - intros Hi text jpeg meta.
    unfold Watchtower_checkText, Watchtower_checkImageJpeg, Watchtower_refreshPolicy.
    rewrite !(on_client_initialized _ _ _ Hi).
    split; [apply checkText_never_throws|].
    split; [apply checkImageJpeg_never_throws|].
    destruct (refreshPolicy_normal env (heap s)) as (v3 & w3 & H3 & _).
    exists v3. now rewrite H3.
  - intros key cfg. repeat split.
Qed.

(** ** The policy store, again *)

(** X15: in any interleaving, a step of the store leaves [cachedPolicy]
    and [policyLastFetchMs] as they are, unless it is the settling of a
    policy request by a 2xx answer with a readable body from which a policy
    can be built: that step stores this policy and the clock at the answer.
    A body on whose thresholds [Number] throws changes nothing. *)
Theorem only_a_successful_answer_changes_the_cache s e s' :
  step s e = Some s' ->
  let unchanged :=
    cachedPolicy (client (world s')) = cachedPolicy (client (world s)) /\
    policyLastFetchMs (client (world s')) = policyLastFetchMs (client (world s)) in
  match e with
  | Settle p r =>
      match readable (outcome r) with
      | Some j =>
          match policy_of_json j with
          | Normal policy =>
              cachedPolicy (client (world s')) = policy /\
              policyLastFetchMs (client (world s')) = arrival r
          | Abrupt _ => unchanged
          end
      | None => unchanged
      end
  | Refresh _ | Access _ _ | Resume _ => unchanged
  end.
Proof.
  intros He. cbv zeta.
  assert (Hkeep : no_success e ->
                  cachedPolicy (client (world s')) = cachedPolicy (client (world s)) /\
                  policyLastFetchMs (client (world s')) =
                  policyLastFetchMs (client (world s)))
    by (intros Hn; exact (step_keeps_policy s e s' Hn He)).
  destruct e as [c|c t|p r|c]; try (apply Hkeep; exact I).
  destruct (readable (outcome r)) as [j|] eqn:Hr;
    [|apply Hkeep; cbn [no_success]; now apply refresh_failed_readable].
  cbn [step] in He.
  destruct (take_inflight p (inflight s)) as [[fl rest]|]; [|discriminate].
  destruct (nth_error (promises (world s)) p) as [[|v0]|]; try discriminate.
  destruct (outcome r) as [ | | res] eqn:Ho; try discriminate.
  cbn [readable] in Hr. destruct (ok res) eqn:Hok; [|discriminate].
  destruct (payload res) as [j'| | ] eqn:Hp; try discriminate.
  injection Hr as ->.
  destruct (policy_of_json j) as [policy|err] eqn:Hj.
  - rewrite (resume_success (if_default fl) (if_request fl) (answering r) (world s) res j
               policy) in He by assumption.
    injection He as <-. split; reflexivity.
  - rewrite (resume_no_policy (if_default fl) (if_request fl) (answering r) (world s) res j
               err) in He by assumption.
    injection He as <-. split; reflexivity.
Qed.

(** ** The SDK in front of the mock service *)

Lemma num_gt_ge (a b : number) : num_gt a b = true -> num_ge a b = true.
Proof.
  unfold num_gt, num_ge, SFltb, SFleb.
  destruct (SFcompare b a) as [[ | | ]|]; congruence.
Qed.

(** X16: in front of the mock service (policy from [policy/route.ts], image
    answer from [moderate/image/route.ts] for a random score below 1),
    [checkImageJpeg] resolves to BLOCK exactly when the score is at least
    0.85: above 0.85 the service blocks and the client adds ["policy_nsfw"]
    to its reason, at 0.85 itself the service allows and the client alone
    blocks, below it the result is ALLOW without reasons. *)
Theorem sdk_in_front_of_the_mock_service jpeg meta env w policy w1 bytes score :
  num_gt n1 score = true ->
  policy_of_json mock_policy_body = Normal policy ->
  _getPolicyMaybeRefresh env w = (Normal policy, w1) ->
  fst (toUint8Array jpeg env w1) = Normal bytes ->
  outcome (net env (imageRequest (client w1) bytes)) =
    Responded (NextResponse_json (mock_image_body score)) ->
  fst (checkImageJpeg jpeg meta env w) =
  Normal {| decision := JStr (if num_ge score n0_85 then "BLOCK" else "ALLOW");
            nsfwScore := number_or_null (Some (JSON_number score));
            reasons :=
              (if num_gt score n0_85 then [JStr "mock_nsfw_detected"] else [])
              ++ (if num_ge score n0_85 then [JStr "policy_nsfw"] else []) |}.
Proof.
  intros Hlt Hj Hg Hb Ho.
  change (policy_of_json mock_policy_body)
    with (Normal (mkPolicy (JBool true) (JBool true) (JBool true) n0_85 n0_9 n0_85))
    in Hj.
  injection Hj as <-.
  rewrite (checkImageJpeg_on_success jpeg meta env w _ w1 bytes _ (mock_image_body score)
             Hg Hb Ho eq_refl eq_refl).
  f_equal.
  destruct score as [s|[|]| |s m e]; try discriminate; try reflexivity.
  unfold mock_image_body, result_of_json, _applyPolicyToImageResult.
  cbn -[num_gt num_ge n0_85].
  destruct (num_gt (S754_finite s m e) n0_85) eqn:Hgt.
  - rewrite (num_gt_ge _ _ Hgt). reflexivity.
  - cbn -[num_gt num_ge n0_85]. destruct (num_ge (S754_finite s m e) n0_85); reflexivity.
Qed.

(** With nothing in flight, every suspended call waits for a promise that
    is fulfilled. *)
Lemma suspended_on_fulfilled s su :
  store_inv s -> inflight s = [] -> In su (suspended s) ->
  exists v, nth_error (promises (world s)) (su_promise su) = Some (Fulfilled v).
Proof.
  intros [I1 I2 I3 I4 I5 I6 I7] Hi Hin.
  destruct (nth_error (promises (world s)) (su_promise su)) as [[|v]|] eqn:Hp.
  - assert (Hh := I2 _ Hp). rewrite Hh in I1.
    destruct I1 as [[_ [v E]]|[E _]]; congruence.
  - eauto.
  - apply nth_error_None in Hp. specialize (I4 su Hin). lia.
Qed.

(** With nothing in flight, the suspended calls can all resume, in the
    order in which they suspended, and each returns. *)
Lemma resume_all (l : list Suspended) : forall s,
  store_inv s -> inflight s = [] -> suspended s = l ->
  exists s' extra,
    run s (map Resume (map su_caller l)) = Some s' /\
    store_inv s' /\ inflight s' = [] /\ suspended s' = [] /\
    returned s' = returned s ++ extra /\
    forall su, In su l ->
      exists v, In (mkReturned (su_caller su) (Some (su_promise su)) v) extra.
Proof.
  induction l as [|su l IH]; intros s Hinv Hi Hs.
  - exists s, []. cbn. rewrite app_nil_r.
    split; [reflexivity|]. split; [exact Hinv|]. split; [exact Hi|].
    split; [exact Hs|]. split; [reflexivity|]. intros su [].
  - destruct (suspended_on_fulfilled s su Hinv Hi) as [v Hp].
    { rewrite Hs. now left. }
    assert (Ht : take_caller (su_caller su) (suspended s) = Some (su, l)).
    { rewrite Hs. cbn. now rewrite Nat.eqb_refl. }
    assert (Hstep := step_resume (su_caller su) s su l v Ht Hp).
    cbn [map run]. rewrite Hstep.
    set (s1 := mkStore _ _ _ _) in *.
    destruct (IH s1 (step_inv _ _ _ Hinv Hstep) Hi eq_refl)
      as (s' & extra & Hrun & Hinv' & Hi' & Hs' & Hr' & Hall).
    exists s', (mkReturned (su_caller su) (Some (su_promise su)) v :: extra).
    split; [exact Hrun|]. split; [exact Hinv'|]. split; [exact Hi'|].
    split; [exact Hs'|]. split.
    + rewrite Hr'. subst s1. cbn [returned]. now rewrite <- app_assoc.
    + intros x [<-|Hx].
      * exists v. now left.
      * destruct (Hall x Hx) as [v' Hv']. exists v'. now right.
Qed.

(** X14: the store cannot wedge.  From every state it can reach, and
    whatever answers the request in flight (if there is one), the steps
    "settle, then resume every suspended call" are all enabled and end in a
    state with no promise in the client, nothing in flight and nobody
    suspended, every call that was suspended having returned. *)
Theorem the_store_never_wedges s r :
  reachable s ->
  exists s' extra,
    run s (match inflight s with
           | fl :: _ => [Settle (if_promise fl) r]
           | [] => []
           end ++ map Resume (map su_caller (suspended s))) = Some s' /\
    handle s' = None /\ inflight s' = [] /\ suspended s' = [] /\
    returned s' = returned s ++ extra /\
    forall su, In su (suspended s) ->
      exists v, In (mkReturned (su_caller su) (Some (su_promise su)) v) extra.
Proof.
  intros Hr. assert (Hinv := reachable_inv s Hr).
  assert (Hquiet : forall s0, store_inv s0 -> suspended s0 = [] -> handle s0 = None).
  { intros s0 [_ _ I3 _ _ _ _] Hs0. unfold owners in I3. rewrite Hs0 in I3.
    destruct (handle s0); [destruct I3 as [c I3]; discriminate | reflexivity]. }
  rewrite run_app.
  destruct (inflight s) as [|fl rest] eqn:Hi.
  - cbn [run].
    destruct (resume_all (suspended s) s Hinv Hi eq_refl)
      as (s' & extra & Hrun & Hinv' & Hi' & Hs' & Hr' & Hall).
    exists s', extra. rewrite Hrun. split; [reflexivity|]. split; [auto|].
    split; [exact Hi'|]. split; [exact Hs'|]. split; [exact Hr'|]. exact Hall.
  - assert (Hone : rest = []).
    { destruct Hinv as [I1 _ _ _ _ _ _]. rewrite Hi in I1.
      destruct (handle s); [destruct I1 as [[E _]|[E _]]|]; congruence. }
    subst rest.
    destruct (settle_then_owner_clears s fl r Hinv Hi) as (c & s1 & s2 & Hst & _).
    cbn [run]. rewrite Hst.
    assert (Hinv1 := step_inv _ _ _ Hinv Hst).
    assert (Hs1 : suspended s1 = suspended s /\ inflight s1 = [] /\
                  returned s1 = returned s).
    { cbn [step] in Hst. rewrite Hi in Hst. cbn [take_inflight] in Hst.
      rewrite Nat.eqb_refl in Hst.
      destruct (nth_error (promises (world s)) (if_promise fl)) as [[|v0]|];
        try discriminate.
      destruct (safeApiCall _ _ _ _ _) as [[v|e] w1]; [|discriminate].
      injection Hst as <-. auto. }
    destruct Hs1 as (Hsu1 & Hi1 & Hr1).
    destruct (resume_all (suspended s1) s1 Hinv1 Hi1 eq_refl)
      as (s' & extra & Hrun & Hinv' & Hi' & Hs' & Hr' & Hall).
    exists s', extra. rewrite <- Hsu1, Hrun, <- Hr1.
    split; [reflexivity|]. split; [auto|].
    split; [exact Hi'|]. split; [exact Hs'|]. split; [exact Hr'|]. exact Hall.
Qed.

(** X17: [refreshPolicy], called while no refresh is under way, fetches
    whatever the age of the cached policy: it sends one policy request,
    returns the policy that is cached afterwards, and leaves no promise and
    no timer behind. *)
Theorem refreshPolicy_fetches_even_a_fresh_policy env w :
  _policyRefreshPromise (client w) = None ->
  exists w',
    refreshPolicy env w = (Normal (cachedPolicy (client w')), w') /\
    netlog w' = netlog w ++ [policyRequest (client w)] /\
    _policyRefreshPromise (client w') = None /\
    timers w' = timers w.
Proof.
  intros Hh.
  destruct (refreshPolicy_performs env w Hh) as (v & w' & Hr & Hl & Hn & Hv & _).
  exists w'. subst v. split; [exact Hr|]. split; [exact Hl|]. split; [exact Hn|].
  assert (Ht := refreshPolicy_timers env w). now rewrite Hr in Ht.
Qed.

(** X18: the start-up of the dashboard in front of the mock policy route:
    whatever the singleton held before, the policy of the route is returned
    and cached (its [sexualThreshold] is 0.9, the other fields equal the
    defaults), one request went to [/api/watchtower/v1/policy], and for the
    next 300 000 ms a policy access sends nothing. *)
Theorem dashboard_startup_caches_the_mock_policy env s ta :
  net env (policyRequest (constructor "mock-api-key" (Some dashboard_config))) =
    mkReply (Responded (NextResponse_json mock_policy_body)) ta ->
  let mock_policy :=
    mkPolicy (JBool true) (JBool true) (JBool true) n0_85 n0_9 n0_85 in
  let s' := snd (dashboard_startup env s) in
  fst (dashboard_startup env s) = Normal mock_policy /\
  initialized s' = true /\
  cachedPolicy (client (heap s')) = mock_policy /\
  map url (netlog (heap s')) =
    map url (netlog (heap s)) ++ ["/api/watchtower/v1/policy"] /\
  forall env2 t,
    num_le (num_sub t ta) (num_mul n300 n1000) = true ->
    _getPolicyMaybeRefresh env2 (at_time t (heap s')) =
    (Normal mock_policy, at_time t (heap s')).
Proof.
  intros Hnet. cbv zeta.
  set (w0 := heap (init "mock-api-key" (Some dashboard_config) s)).
  assert (Hh : _policyRefreshPromise (client w0) = None) by reflexivity.
  assert (Ho : outcome (net env (policyRequest (client w0))) =
               Responded (NextResponse_json mock_policy_body))
    by (subst w0; cbn [heap init set_client client]; now rewrite Hnet).
  destruct (refreshPolicy_success env w0 _ mock_policy_body
              (mkPolicy (JBool true) (JBool true) (JBool true) n0_85 n0_9 n0_85)
              Hh Ho eq_refl eq_refl eq_refl)
    as (w' & Hr & Hc & Hl & _).
  destruct (refreshPolicy_performs env w0 Hh) as (v & w2 & Hr2 & Hlog & _).
  destruct (refreshPolicy_normal env w0) as (v3 & w3 & Hr3 & _ & Hcfg).
  rewrite Hr in Hr2, Hr3. injection Hr2 as <- <-. injection Hr3 as <- <-.
  unfold dashboard_startup, Watchtower_refreshPolicy, on_client, _requireClient.
  cbn [initialized init]. fold w0. rewrite Hr. cbn [fst snd heap initialized].
  split; [reflexivity|]. split; [reflexivity|]. split; [exact Hc|]. split.
  - rewrite Hlog, map_app. reflexivity.
  - intros env2 t Hage.
    rewrite <- Hc. rewrite getPolicy_fresh; [reflexivity|].
    unfold stale. cbn [at_time client now]. rewrite Hl, Hcfg.
    apply num_le_not_gt.
    subst w0. cbn [heap init set_client client]. rewrite Hnet. exact Hage.
Qed.

(** ** A policy answer from which no policy can be built *)

Lemma join_error parts e : join parts = Abrupt e -> In (Abrupt e) parts.
Proof.
  induction parts as [|part rest IH]; cbn [join]; [discriminate|].
  destruct part as [s|e']; cbn [and_then].
  - destruct rest as [|p rest']; [discriminate|].
    destruct (join (p :: rest')) as [t|e'']; cbn [and_then]; [discriminate|].
    intros H. injection H as <-. right. now apply IH.
  - intros H. injection H as <-. now left.
Qed.

(** [String] and [Number] throw one error only. *)
Lemma ToString_error : forall v e, ToString v = Abrupt e -> e = TypeError_no_primitive.
Proof.
  fix IH 1. intros [ |[|]|n|s|items|fields] e; cbn [ToString]; try discriminate.
  - intros H. apply join_error in H. apply in_map_iff in H. destruct H as (x & Hx & Hin).
    assert (Hall : forall y, In y items ->
                   forall e', ToString y = Abrupt e' -> e' = TypeError_no_primitive).
    { clear Hin Hx x e. revert items. fix IHl 1. intros [|y rest]; cbn [In]; [tauto|].
      intros z [<-|Hz]; [apply IH | apply (IHl rest z Hz)]. }
    destruct x; try discriminate; exact (Hall _ Hin _ Hx).
  - destruct (assoc "toString" fields); intros H; [now injection H | discriminate].
Qed.

Lemma Number_error v e : Number v = Abrupt e -> e = TypeError_no_primitive.
Proof.
  destruct v as [ |[|]|n|s|items|fields]; cbn [Number]; try discriminate;
    (destruct (ToString _) as [t|e'] eqn:Ht; cbn [and_then]; [discriminate|];
     intros H; injection H as <-; exact (ToString_error _ _ Ht)).
Qed.

Lemma policy_of_json_error j e :
  policy_of_json j = Abrupt e -> e = TypeError_no_primitive.
Proof.
  unfold policy_of_json.
  destruct (Number (nullish (opt_get j "toxicityThreshold") (JNum n0_85))) eqn:H1;
    cbn [and_then]; [|intros H; injection H as <-; exact (Number_error _ _ H1)].
  destruct (Number (nullish (opt_get j "sexualThreshold") (JNum n0_85))) eqn:H2;
    cbn [and_then]; [|intros H; injection H as <-; exact (Number_error _ _ H2)].
  destruct (Number (nullish (opt_get j "nsfwThreshold") (JNum n0_85))) eqn:H3;
    cbn [and_then]; [discriminate|intros H; injection H as <-; exact (Number_error _ _ H3)].
Qed.

(** X19: a 2xx policy answer with a readable body on one of whose
    thresholds [Number] throws is a failed refresh: the TypeError is caught
    by [safeApiCall] and logged under "refreshPolicy", [refreshPolicy]
    returns the policy that was cached before, and the client (cached
    policy, timestamp, no promise) is what it was, so that the next stale
    access asks again. *)
Theorem refresh_with_unconvertible_threshold_changes_nothing env w j e :
  _policyRefreshPromise (client w) = None ->
  readable (outcome (net env (policyRequest (client w)))) = Some j ->
  policy_of_json j = Abrupt e ->
  e = TypeError_no_primitive /\
  exists w',
    refreshPolicy env w = (Normal (cachedPolicy (client w)), w') /\
    client w' = client w /\
    netlog w' = netlog w ++ [policyRequest (client w)] /\
    console w' = console w ++ [("refreshPolicy", e)] /\
    forall env2 t,
      stale (client w') t = true ->
      netlog (snd (_getPolicyMaybeRefresh env2 (at_time t w'))) =
      netlog w' ++ [policyRequest (client w')].
Proof.
  intros Hh Hr Hj. split; [exact (policy_of_json_error j e Hj)|].
  destruct (outcome (net env (policyRequest (client w)))) as [ | | res] eqn:Ho;
    try discriminate.
  cbn [readable] in Hr. destruct (ok res) eqn:Hok; [|discriminate].
  destruct (payload res) as [j'| | ] eqn:Hp; try discriminate.
  injection Hr as ->.
  assert (Hs := resume_no_policy (cachedPolicy (client w)) (policyRequest (client w)) env
                  (snd (fetchPolicy_start env w)) res j e Ho Hok Hp Hj).
  rewrite <- safeApiCall_fetchPolicy in Hs.
  eexists. split; [exact (refreshPolicy_owner _ _ _ _ Hh Hs)|].
  cbn [client netlog console snd fetchPolicy_start].
  assert (Hc : with_policyRefreshPromise None (client w) = client w)
    by now apply with_no_promise_id.
  split; [exact Hc|]. split; [reflexivity|]. split; [reflexivity|].
  intros env2 t Hst. rewrite getPolicy_stale by exact Hst.
  match goal with
  | |- netlog (snd (refreshPolicy env2 (at_time t ?w'))) = _ =>
      destruct (refreshPolicy_performs env2 (at_time t w')) as (v2 & w2 & Hr2 & Hl2 & _)
  end.
  - reflexivity.
  - rewrite Hr2. exact Hl2.
Qed.

End Sdk.

(** * Examples: the theorems at concrete inputs *)

(** An unsupported input ([checkImageJpeg("cat.jpg")]) does not make the
    call reject: it resolves to the fallback. *)
Lemma C1_unsupported_input_does_not_reject :
  fst (checkImageJpeg demo_StringToNumber demo_NumberToString
         (IOther (Some (JStr "cat.jpg"))) JNull offline demo_world)
  = Normal sdk_network_error /\
  ~ (exists e,
        fst (checkImageJpeg demo_StringToNumber demo_NumberToString
               (IOther (Some (JStr "cat.jpg"))) JNull offline demo_world)
        = Abrupt e).
Proof.
  split; [vm_compute; reflexivity|].
  intros [e H]. vm_compute in H. discriminate H.
Qed.

Lemma C1_witness :
  supported (IOther (Some (JStr "cat.jpg"))) = false /\
  fst (checkImageJpeg demo_StringToNumber demo_NumberToString
         (IOther (Some (JStr "cat.jpg"))) JNull offline demo_world)
  = Normal sdk_network_error.
Proof.
  split; [reflexivity|].
  apply (C1_unsupported_input_resolves_to_fallback demo_StringToNumber demo_NumberToString
           (IOther (Some (JStr "cat.jpg"))) JNull offline demo_world).
  reflexivity.
Defined.

(** Three callers find the policy stale on a new client and the request
    times out: one request, one policy for the three, no promise left. *)
Lemma C2_witness :
  reachable demo_StringToNumber demo_NumberToString (initial "mock-api-key" None t_2023) /\
  exists s',
    run demo_StringToNumber demo_NumberToString (initial "mock-api-key" None t_2023)
      ([Access 1 t_2023; Access 2 t_2023; Access 3 t_2023]
       ++ [Settle 0 (mkReply TimedOut t_2023)]
       ++ [Resume 1; Resume 2; Resume 3]) = Some s' /\
    netlog (world s') = [policyRequest (constructor "mock-api-key" None)] /\
    returned s' =
      [mkReturned 1 (Some 0) (cachedPolicy (client (world s')));
       mkReturned 2 (Some 0) (cachedPolicy (client (world s')));
       mkReturned 3 (Some 0) (cachedPolicy (client (world s')))] /\
    handle s' = None /\ inflight s' = [].
Proof.
  split; [apply reach_initial|].
  apply (proj1 (proj2 (proj2 (proj2
           (C2_single_flight_refresh demo_StringToNumber demo_NumberToString
              (initial "mock-api-key" None t_2023)
              (reach_initial demo_StringToNumber demo_NumberToString "mock-api-key" None t_2023)))))
           [(1, t_2023); (2, t_2023); (3, t_2023)] (mkReply TimedOut t_2023)).
  - reflexivity.
  - discriminate.
  - repeat constructor; simpl; intuition discriminate.
  - intros c H. reflexivity.
  - repeat constructor.
Defined.

Lemma C3_witness :
  _policyRefreshPromise (client demo_world) = None /\
  refresh_failed (outcome (net offline (policyRequest (client demo_world)))) = true /\
  exists w',
    refreshPolicy demo_StringToNumber demo_NumberToString offline demo_world
    = (Normal (cachedPolicy (client demo_world)), w') /\
    cachedPolicy (client w') = cachedPolicy (client demo_world) /\
    policyLastFetchMs (client w') = policyLastFetchMs (client demo_world).
Proof.
  split; [reflexivity|]. split; [reflexivity|].
  destruct (C3_failed_refresh_keeps_cache_and_timestamp demo_StringToNumber
              demo_NumberToString offline demo_world eq_refl eq_refl) as (w' & H1 & H2 & H3 & _).
  exists w'. auto.
Defined.

Lemma C4_witness :
  num_le (num_sub (now fresh_world) (policyLastFetchMs (client fresh_world)))
         (num_mul (policyRefreshSeconds (config (client fresh_world))) n1000) = true /\
  _getPolicyMaybeRefresh demo_StringToNumber demo_NumberToString offline fresh_world
  = (Normal DEFAULT_POLICY, fresh_world).
Proof.
  split; [vm_compute; reflexivity|].
  apply (C4_fresh_policy_is_served_from_cache demo_StringToNumber demo_NumberToString
           offline fresh_world).
  vm_compute; reflexivity.
Defined.

(** The example of the specification: score 0.9, threshold 0.85, the remote
    said ALLOW. *)
Lemma C5_witness :
  _getPolicyMaybeRefresh demo_StringToNumber demo_NumberToString
    (answering (reply_json 200 allow_with_score_0_9)) fresh_silent_world
  = (Normal DEFAULT_POLICY, fresh_silent_world) /\
  num_ge n0_9 (nsfwThreshold DEFAULT_POLICY) = true /\
  fst (checkImageJpeg demo_StringToNumber demo_NumberToString (IUint8Array one_byte) JNull
         (answering (reply_json 200 allow_with_score_0_9)) fresh_silent_world)
  = Normal {| decision := JStr "BLOCK";
              nsfwScore := Some n0_9;
              reasons := [JStr "policy_nsfw"] |}.
Proof.
  split; [vm_compute; reflexivity|]. split; [vm_compute; reflexivity|].
  apply (C5_nsfw_score_over_threshold_forces_block demo_StringToNumber demo_NumberToString
           (IUint8Array one_byte) JNull (answering (reply_json 200 allow_with_score_0_9))
           fresh_silent_world DEFAULT_POLICY fresh_silent_world one_byte
           (mkResponse 200 (BodyJson allow_with_score_0_9)) allow_with_score_0_9 n0_9);
    vm_compute; reflexivity.
Defined.

Lemma C6_witness :
  decision (mkResult (JStr "BLOCK") (Some n0) [JStr "mock_nsfw_detected"]) = JStr "BLOCK" /\
  decision (_applyPolicyToImageResult
              (mkResult (JStr "BLOCK") (Some n0) [JStr "mock_nsfw_detected"])
              DEFAULT_POLICY) = JStr "BLOCK".
Proof.
  split; [reflexivity|].
  apply (C6_block_is_never_relaxed
           (mkResult (JStr "BLOCK") (Some n0) [JStr "mock_nsfw_detected"]) DEFAULT_POLICY).
  reflexivity.
Defined.

Lemma C7_witness :
  call_failed (outcome (net offline (textRequest (client demo_world) "hello" JNull)))
  = true /\
  fst (checkText demo_StringToNumber demo_NumberToString "hello" JNull offline demo_world)
  = Normal (JBool true).
Proof.
  split; [reflexivity|].
  apply (C7_checkText_fails_open_to_true demo_StringToNumber demo_NumberToString
           "hello" JNull offline demo_world).
  reflexivity.
Defined.

(** The answer [{"isTextPermitted": 0}] with status 200: [checkText]
    resolves to the number 0, which is not [true] and which a caller that
    branches on the result takes for a refusal. *)
Lemma C8_witness :
  outcome (net (answering (reply_json 200 flag_is_zero))
             (textRequest (client fresh_world) "hello" JNull))
  = Responded (mkResponse 200 (BodyJson flag_is_zero)) /\
  ok (mkResponse 200 (BodyJson flag_is_zero)) = true /\
  opt_get flag_is_zero "isTextPermitted" = Some (JNum n0) /\
  ToString demo_NumberToString (JNum n0) = Normal "0" /\
  fst (checkText demo_StringToNumber demo_NumberToString "hello" JNull
         (answering (reply_json 200 flag_is_zero)) fresh_world)
  = Normal (JNum n0) /\
  JNum n0 <> JBool true /\ truthy (JNum n0) = false.
Proof.
  split; [reflexivity|]. split; [reflexivity|]. split; [reflexivity|].
  split; [reflexivity|].
  split; [|split; [discriminate | reflexivity]].
  apply (C8_checkText_returns_the_flag_unchecked demo_StringToNumber demo_NumberToString
           "hello" JNull (answering (reply_json 200 flag_is_zero)) fresh_world
           (mkResponse 200 (BodyJson flag_is_zero)) flag_is_zero (JNum n0)).
  - reflexivity.
  - reflexivity.
  - reflexivity.
  - reflexivity.
  - discriminate.
  - right. right. exists "0". reflexivity.
Defined.

Lemma C9_witness :
  fst (toUint8Array (IArrayBuffer one_byte) offline demo_world) = Normal one_byte /\
  failed_in_transport
    (outcome (net offline (imageRequest (client demo_world) one_byte))) = true /\
  fst (checkImageJpeg demo_StringToNumber demo_NumberToString (IArrayBuffer one_byte) JNull
         offline demo_world)
  = Normal sdk_network_error /\
  ok (mkResponse 503 BodyMalformed) = false /\
  fst (checkImageJpeg demo_StringToNumber demo_NumberToString (IArrayBuffer one_byte) JNull
         (answering (mkReply (Responded (mkResponse 503 BodyMalformed)) t_2023)) demo_world)
  = Normal cloud_unavailable.
Proof.
  split; [reflexivity|]. split; [reflexivity|]. split; [|split; [reflexivity|]].
  - apply (proj1 (C9_two_fail_open_results demo_StringToNumber demo_NumberToString
                    (IArrayBuffer one_byte) JNull offline demo_world one_byte eq_refl)).
    reflexivity.
  - apply (proj2 (C9_two_fail_open_results demo_StringToNumber demo_NumberToString
                    (IArrayBuffer one_byte) JNull
                    (answering (mkReply (Responded (mkResponse 503 BodyMalformed)) t_2023))
                    demo_world one_byte eq_refl)
             (mkResponse 503 BodyMalformed)); reflexivity.
Defined.

(** With [policyRefreshSeconds: Infinity] the first policy access of a new
    client sends nothing and serves the default policy. *)
Lemma C10_first_access_without_refresh :
  _getPolicyMaybeRefresh demo_StringToNumber demo_NumberToString offline never_refresh_world
  = (Normal DEFAULT_POLICY, never_refresh_world) /\
  netlog (snd (_getPolicyMaybeRefresh demo_StringToNumber demo_NumberToString offline
                 never_refresh_world))
  = [].
Proof. split; vm_compute; reflexivity. Qed.

Lemma C10_witness :
  unrefreshed demo_StringToNumber demo_NumberToString (initial "mock-api-key" None t_2023) /\
  handle (initial "mock-api-key" None t_2023) = None /\
  client demo_world = client (world (initial "mock-api-key" None t_2023)) /\
  cachedPolicy (client demo_world) = DEFAULT_POLICY /\
  policyLastFetchMs (client demo_world) = n0 /\
  netlog (snd (_getPolicyMaybeRefresh demo_StringToNumber demo_NumberToString offline demo_world))
  = [policyRequest (client demo_world)] /\
  fst (_getPolicyMaybeRefresh demo_StringToNumber demo_NumberToString offline demo_world)
  = Normal DEFAULT_POLICY.
Proof.
  split; [apply unref_initial|]. split; [reflexivity|]. split; [reflexivity|].
  destruct (C10_default_policy_until_first_successful_fetch demo_StringToNumber
              demo_NumberToString (initial "mock-api-key" None t_2023)
              (unref_initial demo_StringToNumber demo_NumberToString "mock-api-key" None t_2023))
    as ((Hp & Ht) & H).
  destruct (H offline demo_world eq_refl eq_refl) as (Hstale & _ & Hfail).
  split; [exact Hp|]. split; [exact Ht|]. split.
  - apply Hstale. vm_compute; reflexivity.
  - apply Hfail. right. reflexivity.
Defined.

(** A refresh that succeeds: the answer [{"nsfwThreshold": 0.9}] replaces
    the cached policy, the other fields taking their defaults, and the
    timestamp becomes the clock reading. *)
Example refresh_stores_the_new_policy :
  let '(res, w') :=
    refreshPolicy demo_StringToNumber demo_NumberToString
      (answering (reply_json 200 (JObj [("nsfwThreshold", JNum n0_9)]))) demo_world in
  res = Normal (mkPolicy (JBool true) (JBool true) (JBool true) n0_85 n0_85 n0_9) /\
  cachedPolicy (client w') =
    mkPolicy (JBool true) (JBool true) (JBool true) n0_85 n0_85 n0_9 /\
  policyLastFetchMs (client w') = t_2023 /\
  _policyRefreshPromise (client w') = None /\
  List.length (netlog w') = 1.
Proof. vm_compute. repeat split. Qed.

(** A text check that the service permits: the flag comes back, and the
    policy request, the classification request and the telemetry event were
    sent, in this order. *)
Example checkText_permitted :
  let '(res, w') :=
    checkText demo_StringToNumber demo_NumberToString "hello" JNull
      (answering (reply_json 200 (JObj [("isTextPermitted", JBool true)]))) demo_world in
  res = Normal (JBool true) /\
  map url (netlog w') =
    ["http://localhost:8080/v1/policy"; "http://localhost:8080/checkText";
     "http://localhost:8080/v1/events"].
Proof. vm_compute. repeat split. Qed.

(** ** The further properties at concrete inputs *)

(** With the default [timeoutMs] of 20000 the telemetry request has a
    deadline of at most 5000 ms. *)
Lemma event_deadline_is_at_most_5000_witness :
  timeoutMs (config (client demo_world)) <> S754_nan /\
  exists req,
    netlog (snd (emitEvent_awaited "text_moderated" (JStr "ALLOW") JNull (JObj [])
                   offline demo_world)) = netlog demo_world ++ [req] /\
    url req = String.append (apiBaseUrl (config (client demo_world))) "/v1/events" /\
    num_le (deadlineMs req) n5000 = true /\
    num_le (deadlineMs req) (timeoutMs (config (client demo_world))) = true.
Proof.
  split; [discriminate|].
  apply (event_deadline_is_at_most_5000 "text_moderated" (JStr "ALLOW") JNull (JObj [])
           offline demo_world).
  discriminate.
Defined.

(** The remote says ALLOW with a score of 0.9: the result is BLOCK (see
    [C5_witness]), the event reports ALLOW. *)
Lemma checkImageJpeg_event_reports_the_remote_decision_witness :
  fst (toUint8Array (IUint8Array one_byte)
         (answering (reply_json 200 allow_with_score_0_9)) fresh_world)
  = Normal one_byte /\
  netlog (snd (checkImageJpeg demo_StringToNumber demo_NumberToString (IUint8Array one_byte)
                 JNull (answering (reply_json 200 allow_with_score_0_9)) fresh_world))
  = [imageRequest (client fresh_world) one_byte;
     eventRequest (client fresh_world) "image_moderated" (JStr "ALLOW") JNull
       (JObj [("nsfwScore", JStr "0.9")]) t_2023].
Proof.
  split; [reflexivity|].
  rewrite (checkImageJpeg_event_reports_the_remote_decision demo_StringToNumber
             demo_NumberToString (IUint8Array one_byte) JNull
             (answering (reply_json 200 allow_with_score_0_9)) fresh_world one_byte
             eq_refl).
  vm_compute. reflexivity.
Defined.

(** The image request of a check carries the API key of the client. *)
Lemma every_request_is_authorized_witness :
  In (imageRequest (client fresh_world) one_byte)
     (netlog (snd (checkImageJpeg demo_StringToNumber demo_NumberToString
                     (IUint8Array one_byte) JNull offline fresh_world))) /\
  authorized (client fresh_world) (imageRequest (client fresh_world) one_byte) = true.
Proof.
  assert (H : In (imageRequest (client fresh_world) one_byte)
                (netlog (snd (checkImageJpeg demo_StringToNumber demo_NumberToString
                                (IUint8Array one_byte) JNull offline fresh_world))))
    by (vm_compute; left; reflexivity).
  split; [exact H|].
  destruct (every_request_is_authorized demo_StringToNumber demo_NumberToString offline
              fresh_world (imageRequest (client fresh_world) one_byte)) as [[]|Ha].
  - right. right. right. left. exists (IUint8Array one_byte), JNull. exact H.
  - exact Ha.
Defined.

(** A refresh that got the policy of the mock route, and an access at the
    same instant with the network down. *)
Lemma refreshed_policy_is_then_served_from_cache_witness :
  _policyRefreshPromise (client demo_world) = None /\
  readable (outcome (net (answering (reply_json 200 mock_policy_body))
                       (policyRequest (client demo_world))))
  = Some mock_policy_body /\
  policy_of_json demo_StringToNumber demo_NumberToString mock_policy_body
  = Normal (mkPolicy (JBool true) (JBool true) (JBool true) n0_85 n0_9 n0_85) /\
  num_le (num_sub t_2023
            (arrival (net (answering (reply_json 200 mock_policy_body))
                        (policyRequest (client demo_world)))))
         (num_mul (policyRefreshSeconds (config (client demo_world))) n1000) = true /\
  _getPolicyMaybeRefresh demo_StringToNumber demo_NumberToString offline
    (at_time t_2023
       (snd (refreshPolicy demo_StringToNumber demo_NumberToString
               (answering (reply_json 200 mock_policy_body)) demo_world)))
  = (Normal (mkPolicy (JBool true) (JBool true) (JBool true) n0_85 n0_9 n0_85),
     at_time t_2023
       (snd (refreshPolicy demo_StringToNumber demo_NumberToString
               (answering (reply_json 200 mock_policy_body)) demo_world))).
Proof.
  split; [reflexivity|]. split; [reflexivity|]. split; [reflexivity|].
  split; [vm_compute; reflexivity|].
  apply (refreshed_policy_is_then_served_from_cache demo_StringToNumber
           demo_NumberToString
           (answering (reply_json 200 mock_policy_body)) demo_world mock_policy_body
           (mkPolicy (JBool true) (JBool true) (JBool true) n0_85 n0_9 n0_85)
           offline t_2023).
  - reflexivity.
  - reflexivity.
  - reflexivity.
  - vm_compute; reflexivity.
Defined.

Lemma policy_is_never_refreshed_with_nan_or_infinite_period_witness :
  (policyRefreshSeconds (config (client never_refresh_world)) = S754_nan \/
   policyRefreshSeconds (config (client never_refresh_world)) = S754_infinity false) /\
  _getPolicyMaybeRefresh demo_StringToNumber demo_NumberToString offline never_refresh_world
  = (Normal (cachedPolicy (client never_refresh_world)), never_refresh_world).
Proof.
  split; [right; reflexivity|].
  apply (policy_is_never_refreshed_with_nan_or_infinite_period demo_StringToNumber
           demo_NumberToString
           offline never_refresh_world).
  right; reflexivity.
Defined.

(** Two callers wait for one refresh: the answer and their two resumptions
    bring the store to rest. *)
Lemma the_store_never_wedges_witness :
  exists s,
    run demo_StringToNumber demo_NumberToString (initial "mock-api-key" None t_2023)
      [Access 1 t_2023; Access 2 t_2023] = Some s /\
    reachable demo_StringToNumber demo_NumberToString s /\
    exists s',
      run demo_StringToNumber demo_NumberToString s
        [Settle 0 (mkReply TimedOut t_2023); Resume 1; Resume 2] = Some s' /\
      _policyRefreshPromise (client (world s')) = None /\
      inflight s' = [] /\ suspended s' = [] /\
      map rt_caller (returned s') = [1; 2].
Proof.
  eexists. split; [vm_compute; reflexivity|].
  match goal with
  | |- reachable _ _ ?s /\ _ =>
      assert (Hreach : reachable demo_StringToNumber demo_NumberToString s)
  end.
  { eapply (reach_step demo_StringToNumber demo_NumberToString _ (Access 2 t_2023)).
    - eapply (reach_step demo_StringToNumber demo_NumberToString
                (initial "mock-api-key" None t_2023)
                (Access 1 t_2023)).
      + apply reach_initial.
      + vm_compute; reflexivity.
    - vm_compute; reflexivity. }
  split; [exact Hreach|].
  destruct (the_store_never_wedges demo_StringToNumber demo_NumberToString _
              (mkReply TimedOut t_2023) Hreach)
    as (s' & extra & Hrun & Hh & Hi & Hs & _).
  exists s'. split; [exact Hrun|]. split; [exact Hh|]. split; [exact Hi|].
  split; [exact Hs|].
  vm_compute in Hrun. injection Hrun as <-. reflexivity.
Defined.

(** The answer of the mock policy route settles a refresh: the cache takes
    the policy of the answer and the arrival time. *)
Lemma only_a_successful_answer_changes_the_cache_witness :
  exists s1 s2,
    step demo_StringToNumber demo_NumberToString (initial "mock-api-key" None t_2023)
      (Access 1 t_2023) = Some s1 /\
    step demo_StringToNumber demo_NumberToString s1
      (Settle 0 (reply_json 200 mock_policy_body)) = Some s2 /\
    cachedPolicy (client (world s2)) =
      mkPolicy (JBool true) (JBool true) (JBool true) n0_85 n0_9 n0_85 /\
    policyLastFetchMs (client (world s2)) = t_2023.
Proof.
  eexists. eexists. split; [vm_compute; reflexivity|].
  match goal with
  | |- step _ _ ?s ?e = Some ?t /\ _ =>
      assert (Hstep : step demo_StringToNumber demo_NumberToString s e = Some t)
        by (vm_compute; reflexivity)
  end.
  split; [exact Hstep|].
  exact (only_a_successful_answer_changes_the_cache demo_StringToNumber
           demo_NumberToString _ _ _ Hstep).
Defined.

(** The draw 0.85: the route says ALLOW (0.85 is not above 0.85), the SDK
    blocks (0.85 is at the threshold). *)
Lemma sdk_in_front_of_the_mock_service_witness :
  num_gt n1 n0_85 = true /\
  opt_get (mock_image_body n0_85) "decision" = Some (JStr "ALLOW") /\
  fst (checkImageJpeg demo_StringToNumber demo_NumberToString (IUint8Array one_byte) JNull
         (mock_env n0_85) dashboard_world)
  = Normal {| decision := JStr "BLOCK";
              nsfwScore := Some n0_85;
              reasons := [JStr "policy_nsfw"] |}.
Proof.
  split; [vm_compute; reflexivity|]. split; [vm_compute; reflexivity|].
  eapply (sdk_in_front_of_the_mock_service demo_StringToNumber demo_NumberToString
            (IUint8Array one_byte) JNull (mock_env n0_85) dashboard_world
            (mkPolicy (JBool true) (JBool true) (JBool true) n0_85 n0_9 n0_85)
            _ one_byte n0_85).
  - vm_compute; reflexivity.
  - reflexivity.
  - cbv. reflexivity.
  - reflexivity.
  - vm_compute; reflexivity.
Defined.

(** A refresh asked for while the policy is fresh still sends a request. *)
Lemma refreshPolicy_fetches_even_a_fresh_policy_witness :
  _policyRefreshPromise (client fresh_world) = None /\
  stale (client fresh_world) (now fresh_world) = false /\
  exists w',
    refreshPolicy demo_StringToNumber demo_NumberToString offline fresh_world
    = (Normal (cachedPolicy (client w')), w') /\
    netlog w' = netlog fresh_world ++ [policyRequest (client fresh_world)] /\
    _policyRefreshPromise (client w') = None /\
    timers w' = timers fresh_world.
Proof.
  split; [reflexivity|]. split; [vm_compute; reflexivity|].
  apply (refreshPolicy_fetches_even_a_fresh_policy demo_StringToNumber demo_NumberToString offline
           fresh_world).
  reflexivity.
Defined.

Lemma dashboard_startup_caches_the_mock_policy_witness :
  net (mock_env n0) (policyRequest (constructor "mock-api-key" (Some dashboard_config)))
  = mkReply (Responded (NextResponse_json mock_policy_body)) t_2023 /\
  fst (dashboard_startup demo_StringToNumber demo_NumberToString (mock_env n0)
         (mkSingleton false demo_world))
  = Normal (mkPolicy (JBool true) (JBool true) (JBool true) n0_85 n0_9 n0_85).
Proof.
  split; [reflexivity|].
  apply (proj1 (dashboard_startup_caches_the_mock_policy demo_StringToNumber
                  demo_NumberToString (mock_env n0)
                  (mkSingleton false demo_world) t_2023 eq_refl)).
Defined.

(** The policy answer [{"nsfwThreshold": {"toString": 0}}] with status 200:
    [Number] throws on the threshold, and the refresh changes nothing. *)
Lemma refresh_with_unconvertible_threshold_changes_nothing_witness :
  _policyRefreshPromise (client demo_world) = None /\
  readable (outcome (net (answering (reply_json 200 threshold_without_primitive))
                       (policyRequest (client demo_world))))
  = Some threshold_without_primitive /\
  policy_of_json demo_StringToNumber demo_NumberToString threshold_without_primitive
  = Abrupt TypeError_no_primitive /\
  exists w',
    refreshPolicy demo_StringToNumber demo_NumberToString
      (answering (reply_json 200 threshold_without_primitive)) demo_world
    = (Normal DEFAULT_POLICY, w') /\
    client w' = client demo_world /\
    console w' = [("refreshPolicy", TypeError_no_primitive)].
Proof.
  split; [reflexivity|]. split; [reflexivity|]. split; [reflexivity|].
  destruct (refresh_with_unconvertible_threshold_changes_nothing demo_StringToNumber
              demo_NumberToString (answering (reply_json 200 threshold_without_primitive))
              demo_world threshold_without_primitive TypeError_no_primitive
              eq_refl eq_refl eq_refl)
    as (_ & w' & Hr & Hc & _ & Hlog & _).
  exists w'. split; [exact Hr|]. split; [exact Hc | exact Hlog].
Defined.

(** A text answer [{"isTextPermitted": {"toString": 0}}] with status 200.
    With telemetry on, [String] throws on the flag while the event is
    prepared: [checkText] logs the error, sends no event and resolves to
    [true].  With telemetry off it resolves to the object itself. *)
Example checkText_flag_without_primitive :
  (let '(res, w') :=
     checkText demo_StringToNumber demo_NumberToString "hello" JNull
       (answering (reply_json 200 flag_without_primitive)) fresh_world in
   res = Normal (JBool true) /\
   map url (netlog w') = ["http://localhost:8080/checkText"] /\
   console w' = [("checkText", TypeError_no_primitive)] /\
   timers w' = 0) /\
  fst (checkText demo_StringToNumber demo_NumberToString "hello" JNull
         (answering (reply_json 200 flag_without_primitive)) fresh_silent_world)
  = Normal no_primitive.
Proof. vm_compute. repeat split. Qed.

(** A [config] whose [policyRefreshSeconds] is present and [undefined]: the
    default of 60 is replaced, [undefined * 1000] is NaN, and the policy never
    counts as stale. *)
Example undefined_replaces_the_default :
  let c :=
    constructor "mock-api-key"
      (Some {| cfg_apiBaseUrl := Missing;
               cfg_sendEvents := Missing;
               cfg_policyRefreshSeconds := Undefined;
               cfg_mode := Missing;
               cfg_timeoutMs := Missing |}) in
  policyRefreshSeconds (config c) = S754_nan /\
  timeoutMs (config c) = n20000 /\
  stale c t_2023 = false.
Proof. vm_compute. repeat split. Qed.
